(** * Turm-3: the production dashboard component [App]

    A shallow embedding of [App.tsx] and [types.ts]: the record types, the
    three memoised derivations ([allProcessedData], [availableMonths],
    [filteredData]), the insight effect and the upload handler, together
    with React's hook cells ([useState], [useMemo], [useEffect],
    [useCallback]) as an explicit component state.

    JavaScript strings are modelled as [string]; one character stands for
    one UTF-16 code unit (those below 256, which covers the digits, the
    period and the hyphen that the code inspects).  JavaScript numbers
    are IEEE-754 doubles and are modelled as primitive [float]s.  Arrays
    are [list]s; an array object's identity (what [Object.is] compares)
    is an address, see [Ref]. *)

From Stdlib Require Import List String Ascii Bool Arith Lia PeanoNat.
From Stdlib Require Import Sorting.Sorted Sorting.Permutation.
From Stdlib Require Import Floats.PrimFloat.
From Stdlib Require Import NArith.
Import ListNotations.
Open Scope string_scope.
Open Scope list_scope.

(** ** JavaScript string and array primitives used by [App] *)

Module JS.

(** [s.split(sep)] for a one-character separator: the pieces between
    the occurrences of [sep], so that a string with [n] separators has
    [n + 1] pieces and [''.split('.')] is [['']]. *)
Fixpoint split (sep : ascii) (s : string) : list string :=
  match s with
  | EmptyString => [EmptyString]
  | String c rest =>
      if Ascii.eqb c sep then EmptyString :: split sep rest
      else match split sep rest with
           | [] => [String c EmptyString]
           | piece :: pieces => String c piece :: pieces
           end
  end.

(** The filler of [padStart]: [pad] repeated and cut to [n] characters;
    [cur] is what is left of the copy of [pad] being written. *)
Fixpoint filler (pad cur : string) (n : nat) : string :=
  match n with
  | O => EmptyString
  | S n' =>
      match cur with
      | String c cur' => String c (filler pad cur' n')
      | EmptyString =>
          match pad with
          | String c cur' => String c (filler pad cur' n')
          | EmptyString => EmptyString
          end
      end
  end.

(** [s.padStart(targetLength, padString)]. *)
Definition padStart (s : string) (targetLength : nat) (padString : string)
  : string :=
  if Nat.leb targetLength (String.length s) then s
  else (filler padString padString (targetLength - String.length s)
        ++ s)%string.

(** [arr[i]] on an array of strings that is known to be long enough is
    [nth i arr ""]; [arr[0]] on an array that may be empty is
    [undefined], modelled as [None]. *)
Definition index0 {A : Type} (arr : list A) : option A := hd_error arr.

(** [arr.includes(x)] on strings (SameValueZero is string equality). *)
Definition includes (arr : list string) (x : string) : bool :=
  existsb (String.eqb x) arr.

(** A [Set<string>] keeps its elements in insertion order; [add] of an
    element that is already present changes nothing. *)
Definition StringSet := list string.
Definition Set_new : StringSet := [].
Definition Set_add (s : StringSet) (x : string) : StringSet :=
  if includes s x then s else s ++ [x].
Definition Array_from (s : StringSet) : list string := s.

(** [arr.sort()] without a comparator orders strings by their code
    units.  The order is total and equal keys are equal strings, so the
    result does not depend on the engine's algorithm; insertion sort is
    used here. *)
Fixpoint sort_insert (x : string) (l : list string) : list string :=
  match l with
  | [] => [x]
  | y :: l' => if String.leb x y then x :: l else y :: sort_insert x l'
  end.

Definition sort (l : list string) : list string :=
  fold_right sort_insert [] l.

Definition reverse (l : list string) : list string := rev l.

End JS.

(** ** [types.ts] *)

Inductive RoundingMode : Type :=
| VARIANT_A   (* 'Standard (Kaufmännisch)' *)
| VARIANT_B.  (* 'Aufrunden (Always Up)' *)

Inductive Material : Type := Cu | Tombak | Messing | Unklar.

Record ProductionRecord : Type := mkProductionRecord {
  id : string;
  datum : string;
  ofen : string;
  temperatur : string;
  legierung : string;
  gewichtKg : string;
  bemerkungen : string;
  (* Computed fields *)
  temp_n : float;
  alloy_n : float;
  weight_n : float;
  tonnes : float;
  tonnesRounded : float;
  material : Material;
  tempBucket : string
}.

Record AppSettings : Type := mkAppSettings {
  roundingMode : RoundingMode;
  tombakThreshold : float;
  tempBuckets : list float;
  tempTolerance : float
}.

(** ** The month derivations of [App]

    The callbacks of [availableMonths] (lines 45-50) and of [filteredData]
    (lines 59-66) compute the month key with the same four statements;
    [monthKey] is that common body, [None] when the [if] is not taken. *)

Definition monthKey (datum : string) : option string :=
  let parts := JS.split "." datum in
  if Nat.eqb (List.length parts) 3 then
    let month := JS.padStart (nth 1 parts "") 2 "0" in
    let year :=
      if Nat.eqb (String.length (nth 2 parts "")) 2
      then ("20" ++ nth 2 parts "")%string
      else nth 2 parts "" in
    Some (year ++ "-" ++ month)%string
  else None.

(** The [forEach] callback of [availableMonths]. *)
Definition availableMonths_visit (months : JS.StringSet)
  (rec : ProductionRecord) : JS.StringSet :=
  match monthKey (datum rec) with
  | Some key => JS.Set_add months key
  | None => months
  end.

(** The body of the [availableMonths] memo. *)
Definition availableMonths (allProcessedData : list ProductionRecord)
  : list string :=
  let months := fold_left availableMonths_visit allProcessedData JS.Set_new in
  JS.reverse (JS.sort (JS.Array_from months)).

(** The [filter] callback of [filteredData]. *)
Definition filteredData_keep (selectedMonths : list string)
  (rec : ProductionRecord) : bool :=
  match monthKey (datum rec) with
  | Some key => JS.includes selectedMonths key
  | None => false
  end.

(** The body of the [filteredData] memo. *)
Definition filteredData (allProcessedData : list ProductionRecord)
  (selectedMonths : list string) : list ProductionRecord :=
  if Nat.eqb (List.length selectedMonths) 0 then allProcessedData
  else filter (filteredData_keep selectedMonths) allProcessedData.

(** ** The imported functions

    [processRawData] ([utils/dataProcessors]) and
    [parseProductionDataWithAi] ([services/pdfParsingService]) are taken
    as they are imported.  An [async] call settles: it is fulfilled with a
    value or rejected with whatever was thrown. *)

Inductive Thrown : Type :=
| ThrownError (message : string)   (* [error instanceof Error] *)
| ThrownOther.

Inductive Settled (A : Type) : Type :=
| Fulfilled (value : A)
| Rejected (error : Thrown).
Arguments Fulfilled {A} value.
Arguments Rejected {A} error.

Class Imports : Type := {
  File : Type;
  processRawData :
    list ProductionRecord -> AppSettings -> list ProductionRecord;
  parseProductionDataWithAi :
    File -> AppSettings -> Settled (list ProductionRecord)
}.

(** ** [handleFileUpload]

    What the handler does to the component and to the browser is a
    sequence of actions; [SetUploadedRecords l] is the functional update
    [setUploadedRecords(prev => [...prev, ...l])], the only write to the
    record store in the program. *)

Inductive Action : Type :=
| SetIsParsingPdf (b : bool)
| SetUploadedRecords (allExtractedRecords : list ProductionRecord)
| SetUploadStats (stats : option (nat * nat))
| SetTimeout_clearUploadStats (ms : nat)
| ConsoleError (label : string) (error : Thrown)
| Alert (message : string).

Section Upload.
Context `{Imports}.

(** The [for] loop of lines 87-90, from file [i] on, with the records
    gathered so far; a rejected [await] leaves the loop. *)
Fixpoint extractAll (files : list File) (settings : AppSettings)
  (allExtractedRecords : list ProductionRecord)
  : Settled (list ProductionRecord) :=
  match files with
  | [] => Fulfilled allExtractedRecords
  | file :: files' =>
      match parseProductionDataWithAi file settings with
      | Fulfilled records =>
          extractAll files' settings (allExtractedRecords ++ records)
      | Rejected error => Rejected error
      end
  end.

(** The text of the [alert] in the [catch] block. *)
Definition alertMessage (error : Thrown) : string :=
  match error with
  | ThrownError message => message
  | ThrownOther => "Fehler beim Verarbeiten der PDFs."
  end.

(** The handler up to its first [await]. *)
Definition handleFileUpload_enter : list Action := [SetIsParsingPdf true].

(** The handler once its [await]s have settled: the rest of the [try]
    block or the [catch] block, then [finally]. *)
Definition handleFileUpload_resume (settings : AppSettings)
  (files : list File) : list Action :=
  match extractAll files settings [] with
  | Fulfilled allExtractedRecords =>
      [SetUploadedRecords allExtractedRecords;
       SetUploadStats
         (Some (List.length files, List.length allExtractedRecords));
       SetTimeout_clearUploadStats 5000]
  | Rejected error =>
      [ConsoleError "Upload failed" error; Alert (alertMessage error)]
  end ++ [SetIsParsingPdf false].

Definition handleFileUpload (settings : AppSettings) (files : list File)
  : list Action :=
  handleFileUpload_enter ++ handleFileUpload_resume settings files.

End Upload.

(** ** The component state

    A state object or array lives at an address; [Object.is], which React
    uses to compare hook dependencies, compares addresses. *)

Record Ref (A : Type) : Type := mkRef { addr : nat; deref : A }.
Arguments mkRef {A} addr deref.
Arguments addr {A} r.
Arguments deref {A} r.

Definition Object_is {A : Type} (x y : Ref A) : bool :=
  Nat.eqb (addr x) (addr y).

(** The [useState] cells of [App]. *)
Record States : Type := mkStates {
  settings : Ref AppSettings;
  activeTab : string;
  aiInsights : string;
  isAiLoading : bool;
  isParsingPdf : bool;
  uploadedRecords : Ref (list ProductionRecord);
  uploadStats : option (nat * nat);
  selectedMonths : Ref (list string)
}.

(** The [useMemo], [useEffect] and [useCallback] cells: the dependencies
    of the last run and, for a memo, its value.  [None] before the first
    render. *)
Record Cells : Type := mkCells {
  memo_allProcessedData :
    option ((Ref AppSettings * Ref (list ProductionRecord))
            * Ref (list ProductionRecord));
  memo_availableMonths :
    option (Ref (list ProductionRecord) * list string);
  memo_filteredData :
    option ((Ref (list ProductionRecord) * Ref (list string))
            * Ref (list ProductionRecord));
  effect_fetchInsights : option (Ref (list ProductionRecord));
  callback_handleFileUpload : option (Ref AppSettings)
}.

Section Component.
Context `{Imports}.

(** What lies outside the component: the allocator, the calls made to
    [getGeminiInsights] and those still pending, the uploads whose
    [await]s have not settled (with the settings their handler closed
    over), the timers, the console and the alerts shown. *)
Record World : Type := mkWorld {
  next_addr : nat;
  insightCalls : list (list ProductionRecord);
  pendingInsights : list nat;
  pendingUploads : list (list File * AppSettings);
  pendingTimers : nat;
  consoleErrors : list (string * Thrown);
  alerts : list string
}.

Record AppState : Type := mkAppState {
  states : States;
  cells : Cells;
  world : World
}.

Definition with_states (f : States -> States) (st : AppState) : AppState :=
  mkAppState (f (states st)) (cells st) (world st).

Definition with_world (f : World -> World) (st : AppState) : AppState :=
  mkAppState (states st) (cells st) (f (world st)).

(** The state setters. *)
Definition setSettings (v : Ref AppSettings) (s : States) : States :=
  mkStates v (activeTab s) (aiInsights s) (isAiLoading s) (isParsingPdf s)
    (uploadedRecords s) (uploadStats s) (selectedMonths s).
Definition setActiveTab (v : string) (s : States) : States :=
  mkStates (settings s) v (aiInsights s) (isAiLoading s) (isParsingPdf s)
    (uploadedRecords s) (uploadStats s) (selectedMonths s).
Definition setAiInsights (v : string) (s : States) : States :=
  mkStates (settings s) (activeTab s) v (isAiLoading s) (isParsingPdf s)
    (uploadedRecords s) (uploadStats s) (selectedMonths s).
Definition setIsAiLoading (v : bool) (s : States) : States :=
  mkStates (settings s) (activeTab s) (aiInsights s) v (isParsingPdf s)
    (uploadedRecords s) (uploadStats s) (selectedMonths s).
Definition setIsParsingPdf (v : bool) (s : States) : States :=
  mkStates (settings s) (activeTab s) (aiInsights s) (isAiLoading s) v
    (uploadedRecords s) (uploadStats s) (selectedMonths s).
Definition setUploadedRecords (v : Ref (list ProductionRecord))
  (s : States) : States :=
  mkStates (settings s) (activeTab s) (aiInsights s) (isAiLoading s)
    (isParsingPdf s) v (uploadStats s) (selectedMonths s).
Definition setUploadStats (v : option (nat * nat)) (s : States) : States :=
  mkStates (settings s) (activeTab s) (aiInsights s) (isAiLoading s)
    (isParsingPdf s) (uploadedRecords s) v (selectedMonths s).
Definition setSelectedMonths (v : Ref (list string)) (s : States) : States :=
  mkStates (settings s) (activeTab s) (aiInsights s) (isAiLoading s)
    (isParsingPdf s) (uploadedRecords s) (uploadStats s) v.

Definition set_next_addr (n : nat) (w : World) : World :=
  mkWorld n (insightCalls w) (pendingInsights w) (pendingUploads w)
    (pendingTimers w) (consoleErrors w) (alerts w).
Definition set_insights (calls : list (list ProductionRecord))
  (pending : list nat) (w : World) : World :=
  mkWorld (next_addr w) calls pending (pendingUploads w)
    (pendingTimers w) (consoleErrors w) (alerts w).
Definition set_pendingUploads (v : list (list File * AppSettings))
  (w : World) : World :=
  mkWorld (next_addr w) (insightCalls w) (pendingInsights w) v
    (pendingTimers w) (consoleErrors w) (alerts w).
Definition set_pendingTimers (v : nat) (w : World) : World :=
  mkWorld (next_addr w) (insightCalls w) (pendingInsights w)
    (pendingUploads w) v (consoleErrors w) (alerts w).
Definition set_consoleErrors (v : list (string * Thrown)) (w : World)
  : World :=
  mkWorld (next_addr w) (insightCalls w) (pendingInsights w)
    (pendingUploads w) (pendingTimers w) v (alerts w).
Definition set_alerts (v : list string) (w : World) : World :=
  mkWorld (next_addr w) (insightCalls w) (pendingInsights w)
    (pendingUploads w) (pendingTimers w) (consoleErrors w) v.

(** The state of [App] when it is mounted (lines 15-30). *)
Definition initialSettings : AppSettings :=
  mkAppSettings VARIANT_A 85%float [570%float; 610%float; 650%float]
    5%float.

Definition initialState : AppState :=
  mkAppState
    (mkStates (mkRef 0 initialSettings) "dashboard" "" false false
       (mkRef 1 []) None (mkRef 2 []))
    (mkCells None None None None None)
    (mkWorld 3 [] [] [] 0 [] []).

(** *** Rendering

    The body of [App] runs in a monad that allocates the arrays it
    creates and may throw. *)

Definition Render (A : Type) : Type := nat -> option (A * nat).

Definition ret {A : Type} (a : A) : Render A := fun n => Some (a, n).

Definition bind {A B : Type} (m : Render A) (k : A -> Render B)
  : Render B :=
  fun n => match m n with
           | Some (a, n') => k a n'
           | None => None
           end.

Definition alloc {A : Type} (v : A) : Render (Ref A) :=
  fun n => Some (mkRef n v, S n).

Definition throwTypeError {A : Type} : Render A := fun _ => None.

(** [useMemo(factory, deps)] on a cell: the stored value when every
    dependency is the same object as at the last run, the factory's
    value otherwise. *)
Definition useMemo {D V : Type} (same : D -> D -> bool)
  (cell : option (D * V)) (deps : D) (factory : Render V)
  : Render (D * V) :=
  match cell with
  | Some (deps0, v) =>
      if same deps0 deps then ret (deps0, v)
      else bind factory (fun v' => ret (deps, v'))
  | None => bind factory (fun v' => ret (deps, v'))
  end.

Definition same1 {A : Type} (x y : Ref A) : bool := Object_is x y.

Definition same2 {A B : Type} (x y : Ref A * Ref B) : bool :=
  Object_is (fst x) (fst y) && Object_is (snd x) (snd y).

(** [uploadedRecords.map(rec => processRawData([rec], settings)[0])].
    [None] stands for an array with an [undefined] element; the
    [forEach] of [availableMonths], which runs in the same render, reads
    [rec.datum] of every element and throws a [TypeError] on it. *)
Fixpoint allProcessedData_map (settings : AppSettings)
  (uploadedRecords : list ProductionRecord)
  : option (list ProductionRecord) :=
  match uploadedRecords with
  | [] => Some []
  | rec :: rest =>
      match JS.index0 (processRawData [rec] settings),
            allProcessedData_map settings rest with
      | Some enriched, Some others => Some (enriched :: others)
      | _, _ => None
      end
  end.

(** The factory of the [allProcessedData] memo (lines 33-37). *)
Definition allProcessedData (settings : AppSettings)
  (uploadedRecords : list ProductionRecord)
  : Render (Ref (list ProductionRecord)) :=
  match allProcessedData_map settings uploadedRecords with
  | Some arr => alloc arr
  | None => throwTypeError
  end.

(** The factory of the [filteredData] memo (lines 56-68): with an empty
    selection it returns the very array it was given, otherwise
    [filter] makes a new one. *)
Definition filteredData_memo (allProcessedData : Ref (list ProductionRecord))
  (selectedMonths : list string) : Render (Ref (list ProductionRecord)) :=
  if Nat.eqb (List.length selectedMonths) 0 then ret allProcessedData
  else alloc (filteredData (deref allProcessedData) selectedMonths).

(** The three memos, in the order of the source. *)
Definition renderMemos (s : States) (c : Cells)
  : Render ((Ref AppSettings * Ref (list ProductionRecord)
             * Ref (list ProductionRecord))
            * (Ref (list ProductionRecord) * list string)
            * (Ref (list ProductionRecord) * Ref (list string)
               * Ref (list ProductionRecord))) :=
  bind (useMemo same2 (memo_allProcessedData c)
          (settings s, uploadedRecords s)
          (allProcessedData (deref (settings s))
             (deref (uploadedRecords s))))
    (fun m1 =>
  bind (useMemo same1 (memo_availableMonths c) (snd m1)
          (ret (availableMonths (deref (snd m1)))))
    (fun m2 =>
  bind (useMemo same2 (memo_filteredData c)
          (snd m1, selectedMonths s)
          (filteredData_memo (snd m1) (deref (selectedMonths s))))
    (fun m3 => ret (m1, m2, m3)))).

(** [useCallback(handleFileUpload, [settings])]: the handler in use
    closes over the settings of the render that last made it. *)
Definition useCallback_handleFileUpload (cell : option (Ref AppSettings))
  (settings : Ref AppSettings) : option (Ref AppSettings) :=
  match cell with
  | Some deps0 => if Object_is deps0 settings then Some deps0
                  else Some settings
  | None => Some settings
  end.

(** [fetchInsights()] up to its [await] (lines 71-74). *)
Definition fetchInsights (filteredData : list ProductionRecord)
  (st : AppState) : AppState :=
  if Nat.ltb 0 (List.length filteredData) then
    let w := world st in
    mkAppState (setIsAiLoading true (states st)) (cells st)
      (set_insights (insightCalls w ++ [filteredData])
         (pendingInsights w ++ [List.length (insightCalls w)]) w)
  else st.

(** [useEffect(..., [filteredData])]: does [filteredData] differ from
    the one the effect last saw? *)
Definition effect_due (cell : option (Ref (list ProductionRecord)))
  (filteredData : Ref (list ProductionRecord)) : bool :=
  match cell with
  | Some deps0 => negb (Object_is deps0 filteredData)
  | None => true
  end.

(** One render of [App] and the effects that follow its commit; [None]
    when the render throws. *)
Definition render (st : AppState) : option AppState :=
  match renderMemos (states st) (cells st) (next_addr (world st)) with
  | None => None
  | Some ((m1, m2, m3), next) =>
      let filtered := snd m3 in
      let committed :=
        mkAppState (states st)
          (mkCells (Some m1) (Some m2) (Some m3) (Some filtered)
             (useCallback_handleFileUpload
                (callback_handleFileUpload (cells st))
                (settings (states st))))
          (set_next_addr next (world st)) in
      Some (if effect_due (effect_fetchInsights (cells st)) filtered
            then fetchInsights (deref filtered) committed
            else committed)
  end.

(** The insight the header shows (lines 140-152). *)
Definition displayedInsight (st : AppState) : option string :=
  if isAiLoading (states st) || isParsingPdf (states st) then None
  else if String.eqb (aiInsights (states st)) "" then None
  else Some (aiInsights (states st)).

(** The lists the last render handed to the views. *)
Definition rendered_allProcessedData (st : AppState)
  : option (list ProductionRecord) :=
  option_map (fun m => deref (snd m)) (memo_allProcessedData (cells st)).

Definition rendered_availableMonths (st : AppState)
  : option (list string) :=
  option_map snd (memo_availableMonths (cells st)).

Definition rendered_filteredData (st : AppState)
  : option (list ProductionRecord) :=
  option_map (fun m => deref (snd m)) (memo_filteredData (cells st)).

(** *** Events

    What an action of [handleFileUpload] does.  The spread
    [[...prev, ...l]] makes a new array. *)
Definition perform (a : Action) (st : AppState) : AppState :=
  match a with
  | SetIsParsingPdf b => with_states (setIsParsingPdf b) st
  | SetUploadedRecords l =>
      let n := next_addr (world st) in
      let prev := deref (uploadedRecords (states st)) in
      mkAppState (setUploadedRecords (mkRef n (prev ++ l)) (states st))
        (cells st) (set_next_addr (S n) (world st))
  | SetUploadStats stats => with_states (setUploadStats stats) st
  | SetTimeout_clearUploadStats _ =>
      with_world (fun w => set_pendingTimers (S (pendingTimers w)) w) st
  | ConsoleError label error =>
      with_world
        (fun w => set_consoleErrors (consoleErrors w ++ [(label, error)]) w)
        st
  | Alert message =>
      with_world (fun w => set_alerts (alerts w ++ [message]) w) st
  end.

Definition perform_all (actions : list Action) (st : AppState) : AppState :=
  fold_left (fun st' a => perform a st') actions st.

Definition remove_nth {A : Type} (i : nat) (l : list A) : list A :=
  firstn i l ++ skipn (S i) l.

(** What can happen to a mounted [App]: React renders it; [Sidebar] and
    [MonthFilter] call the setters they were handed, each with a new
    object; a file list is handed to [handleFileUpload]; the [await]s of
    a running upload settle; a call of [getGeminiInsights] is fulfilled;
    a timer of line 95 fires. *)
Inductive Event : Type :=
| Ev_render
| Ev_setSettings (newSettings : AppSettings)
| Ev_setActiveTab (tab : string)
| Ev_setSelectedMonths (months : list string)
| Ev_upload (files : list File)
| Ev_uploadSettled (i : nat)
| Ev_insightFulfilled (call : nat) (insights : string)
| Ev_timeout.

Definition react (ev : Event) (st : AppState) : option AppState :=
  match ev with
  | Ev_render => render st
  | Ev_setSettings newSettings =>
      let n := next_addr (world st) in
      Some (mkAppState (setSettings (mkRef n newSettings) (states st))
              (cells st) (set_next_addr (S n) (world st)))
  | Ev_setActiveTab tab => Some (with_states (setActiveTab tab) st)
  | Ev_setSelectedMonths months =>
      let n := next_addr (world st) in
      Some (mkAppState (setSelectedMonths (mkRef n months) (states st))
              (cells st) (set_next_addr (S n) (world st)))
  | Ev_upload files =>
      match callback_handleFileUpload (cells st) with
      | Some closedOver =>
          Some (with_world
                  (fun w => set_pendingUploads
                              (pendingUploads w ++ [(files, deref closedOver)])
                              w)
                  (perform_all handleFileUpload_enter st))
      | None => None
      end
  | Ev_uploadSettled i =>
      match nth_error (pendingUploads (world st)) i with
      | Some (files, closedOver) =>
          Some (perform_all (handleFileUpload_resume closedOver files)
                  (with_world
                     (fun w => set_pendingUploads
                                 (remove_nth i (pendingUploads w)) w)
                     st))
      | None => None
      end
  | Ev_insightFulfilled call insights =>
      if existsb (Nat.eqb call) (pendingInsights (world st)) then
        Some (mkAppState
                (setIsAiLoading false (setAiInsights insights (states st)))
                (cells st)
                (set_insights (insightCalls (world st))
                   (filter (fun c => negb (Nat.eqb call c))
                      (pendingInsights (world st)))
                   (world st)))
      else None
  | Ev_timeout =>
      match pendingTimers (world st) with
      | S k =>
          Some (mkAppState (setUploadStats None (states st)) (cells st)
                  (set_pendingTimers k (world st)))
      | O => None
      end
  end.

Fixpoint run (evs : list Event) (st : AppState) : option AppState :=
  match evs with
  | [] => Some st
  | ev :: evs' =>
      match react ev st with
      | Some st' => run evs' st'
      | None => None
      end
  end.

Definition reachable (st : AppState) : Prop :=
  exists evs, run evs initialState = Some st.

(** The whole handler run without anything in between, on the store
    alone: the store it leaves and the alerts it shows. *)
Definition store_after (settings : AppSettings) (files : list File)
  (st : AppState) : list ProductionRecord :=
  deref (uploadedRecords
           (states (perform_all (handleFileUpload settings files) st))).

End Component.

(** ** What [App] returns (lines 110-221)

    The element tree as far as [App] decides it: which branch of each
    conditional is taken and what is handed to the child components.
    Texts with interpolated numbers are kept as the numbers. *)

(** The line under the title (lines 126-128). *)
Inductive HeaderLine : Type :=
| HeaderEntries (shown total : nat)   (* the two lengths, entries and total *)
| HeaderReady.                        (* 'Bereit zum Import' *)

(** The indicator at the right of the header (lines 140-152). *)
Inductive HeaderBadge : Type :=
| BadgeParsing                  (* 'KI extrahiert Maschinendaten...' *)
| BadgeAnalysing                (* 'KI analysiert Trends...' *)
| BadgeInsight (text : string)
| BadgeNone.

(** The views of the three tabs (lines 211-213). *)
Inductive TabView : Type :=
| DashboardView (data : list ProductionRecord)
| DataTableView (data : list ProductionRecord)
| ValidationView (data : list ProductionRecord).

Definition tabData (v : TabView) : list ProductionRecord :=
  match v with
  | DashboardView data | DataTableView data | ValidationView data => data
  end.

(** Below the month filter (lines 205-215). *)
Inductive Content : Type :=
| NoDataForPeriod        (* the notice that the period has no data *)
| Tabs (views : list TabView).

(** The main area (lines 157-217). *)
Inductive Body : Type :=
| DropZone
| ParsingScreen
| Loaded (availableMonths selectedMonths : list string) (content : Content).

Record Screen : Type := mkScreen {
  sidebar_isUploading : bool;
  headerLine : HeaderLine;
  successBanner : option nat;
  headerBadge : HeaderBadge;
  body : Body
}.

Definition view_headerLine (filteredData allProcessedData
                              : list ProductionRecord) : HeaderLine :=
  if Nat.ltb 0 (List.length filteredData)
  then HeaderEntries (List.length filteredData) (List.length allProcessedData)
  else HeaderReady.

Definition view_successBanner (uploadStats : option (nat * nat))
  : option nat :=
  match uploadStats with
  | Some (_, count) => Some count
  | None => None
  end.

Definition view_headerBadge (isAiLoading isParsingPdf : bool)
  (aiInsights : string) : HeaderBadge :=
  if isAiLoading || isParsingPdf then
    if isParsingPdf then BadgeParsing else BadgeAnalysing
  else if String.eqb aiInsights "" then BadgeNone
  else BadgeInsight aiInsights.

Definition view_tabs (activeTab : string)
  (filteredData : list ProductionRecord) : list TabView :=
  (if String.eqb activeTab "dashboard" then [DashboardView filteredData]
   else [])
  ++ (if String.eqb activeTab "data" then [DataTableView filteredData]
      else [])
  ++ (if String.eqb activeTab "validation" then [ValidationView filteredData]
      else []).

Definition view_body (allProcessedData filteredData : list ProductionRecord)
  (availableMonths selectedMonths : list string) (isParsingPdf : bool)
  (activeTab : string) : Body :=
  if Nat.eqb (List.length allProcessedData) 0 && negb isParsingPdf
  then DropZone
  else if isParsingPdf then ParsingScreen
  else Loaded availableMonths selectedMonths
         (if Nat.eqb (List.length filteredData) 0 then NoDataForPeriod
          else Tabs (view_tabs activeTab filteredData)).

(** The tree of a state whose memos hold the values of its last render;
    [None] before the first render. *)
Definition screen (s : States) (c : Cells) : option Screen :=
  match memo_allProcessedData c, memo_availableMonths c,
        memo_filteredData c with
  | Some (_, allProcessedData), Some (_, availableMonths),
    Some (_, filteredData) =>
      Some (mkScreen (isParsingPdf s)
              (view_headerLine (deref filteredData) (deref allProcessedData))
              (view_successBanner (uploadStats s))
              (view_headerBadge (isAiLoading s) (isParsingPdf s)
                 (aiInsights s))
              (view_body (deref allProcessedData) (deref filteredData)
                 availableMonths (deref (selectedMonths s))
                 (isParsingPdf s) (activeTab s)))
  | _, _, _ => None
  end.

(** ** A small plant for examples

    Documents are numbered; document 2 cannot be read.  The stand-in for
    [processRawData] keeps every record and copies the tolerance of the
    settings it was given into [temp_n]. *)

(** A record as the extraction adapter delivers it: the seven string
    fields filled, the computed fields still at their zero values. *)
Definition rawRecord (id datum : string) : ProductionRecord :=
  mkProductionRecord id datum "O1" "610" "85" "1236" ""
    0%float 0%float 0%float 0%float 0%float Unklar "".

Definition doc1 : list ProductionRecord :=
  [rawRecord "1a" "05.03.24"; rawRecord "1b" "07.04.2024"].

Definition doc3 : list ProductionRecord := [rawRecord "3a" "01.11.2023"].

Definition sample_parse (file : nat) (_ : AppSettings)
  : Settled (list ProductionRecord) :=
  match file with
  | 1 => Fulfilled doc1
  | 2 => Rejected (ThrownError "Seite nicht lesbar")
  | 3 => Fulfilled doc3
  | _ => Fulfilled []
  end.

Definition sample_enrich (s : AppSettings) (r : ProductionRecord)
  : ProductionRecord :=
  mkProductionRecord (id r) (datum r) (ofen r) (temperatur r) (legierung r)
    (gewichtKg r) (bemerkungen r) (tempTolerance s) (alloy_n r) (weight_n r)
    (tonnes r) (tonnesRounded r) (material r) (tempBucket r).

Definition sample_processRawData (rs : list ProductionRecord)
  (s : AppSettings) : list ProductionRecord :=
  map (sample_enrich s) rs.

Definition sample : Imports :=
  Build_Imports nat sample_processRawData sample_parse.

Definition invalidSettings : AppSettings :=
  mkAppSettings VARIANT_A 85%float [650%float; 570%float] (-5)%float.

Definition sampleData : list ProductionRecord :=
  [rawRecord "a" "05.03.24"; rawRecord "b" "bad-date";
   rawRecord "c" "01.11.2023"; rawRecord "d" "17.3.2024";
   rawRecord "e" "02.04.24"; rawRecord "a" "05.03.24"].

Definition upload (files : list nat) : @Event sample :=
  @Ev_upload sample files.

Definition after (evs : list (@Event sample)) : @AppState sample :=
  match run evs initialState with
  | Some st => st
  | None => initialState
  end.

Definition uploaded_1_3 : list (@Event sample) :=
  [Ev_render; upload [1; 3]; Ev_render; Ev_uploadSettled 0].

Definition settings_changed : list (@Event sample) :=
  uploaded_1_3 ++ [Ev_render; Ev_setSettings invalidSettings].

Definition insight_shown : list (@Event sample) :=
  uploaded_1_3 ++ [Ev_render; Ev_insightFulfilled 0 "Kupfer dominiert"].

Definition sample_enriched : list ProductionRecord :=
  map (sample_enrich initialSettings) (doc1 ++ doc3).

Definition sample_screen : Screen :=
  mkScreen false (HeaderEntries 3 3) (Some 3) BadgeAnalysing
    (Loaded ["2024-04"; "2024-03"; "2023-11"] []
       (Tabs [DashboardView sample_enriched])).

(** ** Notions used in the statements *)

(** [zeros n]: the string of [n] characters ["0"]. *)
Fixpoint zeros (n : nat) : string :=
  match n with
  | O => EmptyString
  | S n' => String "0" (zeros n')
  end.

(** [join sep pieces]: the pieces with [sep] between them, the inverse of
    [JS.split]. *)
Fixpoint join (sep : ascii) (pieces : list string) : string :=
  match pieces with
  | [] => EmptyString
  | [piece] => piece
  | piece :: rest => (piece ++ String sep (join sep rest))%string
  end.

(** [contains c s]: the character [c] occurs in [s]. *)
Fixpoint contains (c : ascii) (s : string) : bool :=
  match s with
  | EmptyString => false
  | String c' s' => Ascii.eqb c' c || contains c s'
  end.

(** [l1] is [l2] with some elements left out, the others in place. *)
Inductive sublist {A : Type} : list A -> list A -> Prop :=
| sublist_nil : sublist [] []
| sublist_keep x l1 l2 : sublist l1 l2 -> sublist (x :: l1) (x :: l2)
| sublist_drop x l1 l2 : sublist l1 l2 -> sublist l1 (x :: l2).

(** Strictly descending in the order of [JS.sort]. *)
Definition descending (l : list string) : Prop :=
  StronglySorted (fun a b => String.ltb b a = true) l.

(** The decimal digit [n] and the [w]-digit decimal numeral of [n]. *)
Definition digit (n : nat) : ascii := ascii_of_nat (48 + n).

Fixpoint digits (w n : nat) : string :=
  match w with
  | O => EmptyString
  | S w' => String (digit (n / 10 ^ w')) (digits w' (n mod 10 ^ w'))
  end.

(** The month key of month [m] of the year [y], as [monthKey] writes it
    for a four-digit year. *)
Definition calendarKey (y m : nat) : string :=
  (digits 4 y ++ "-" ++ digits 2 m)%string.

(** [count_char c s]: how often the character [c] occurs in [s]. *)
Fixpoint count_char (c : ascii) (s : string) : nat :=
  match s with
  | EmptyString => 0
  | String c' s' => (if Ascii.eqb c' c then 1 else 0) + count_char c s'
  end.

(** The date string [day.month.year]. *)
Definition date (day month year : string) : string :=
  (day ++ "." ++ month ++ "." ++ year)%string.

(** The settings the specification calls valid, beyond what the type
    [RoundingMode] already ensures: [tempBuckets] ascending and
    [tempTolerance] not negative. *)
Fixpoint ascending (buckets : list float) : bool :=
  match buckets with
  | a :: (b :: _) as rest => PrimFloat.ltb a b && ascending rest
  | _ => true
  end.

Definition validSettings (s : AppSettings) : bool :=
  ascending (tempBuckets s) && PrimFloat.leb 0%float (tempTolerance s).

Section Notions.

Context `{Imports}.

(** The records document [file] yields under [settings]; none when its
    extraction fails. *)
Definition recordsOf (settings : AppSettings) (file : File)
  : list ProductionRecord :=
  match parseProductionDataWithAi file settings with
  | Fulfilled records => records
  | Rejected _ => []
  end.

Definition fails (settings : AppSettings) (file : File) : Prop :=
  exists error, parseProductionDataWithAi file settings = Rejected error.

Definition succeeds (settings : AppSettings) (file : File) : Prop :=
  exists records, parseProductionDataWithAi file settings = Fulfilled records.

Definition is_store_write (a : Action) : bool :=
  match a with
  | SetUploadedRecords _ => true
  | _ => false
  end.

Definition store (st : AppState) : list ProductionRecord :=
  deref (uploadedRecords (states st)).

Definition written (a : Action) : list ProductionRecord :=
  match a with
  | SetUploadedRecords l => l
  | _ => []
  end.

(** The enriched records computed from scratch: [processRawData] applied
    to every record of the store on its own, element [0] of each
    result. *)
Definition from_scratch (settings : AppSettings)
  (store : list ProductionRecord) : list (option ProductionRecord) :=
  map (fun rec => JS.index0 (processRawData [rec] settings)) store.

(** Addresses below [n], and one object per address. *)
Definition heap_ok {A : Type} (n : nat) (l : list (Ref A)) : Prop :=
  (forall r, In r l -> addr r < n) /\
  (forall r1 r2, In r1 l -> In r2 l -> addr r1 = addr r2 -> r1 = r2).

Definition opt_list {A B : Type} (f : A -> list B) (o : option A) : list B :=
  match o with
  | Some a => f a
  | None => []
  end.

(** The references a state holds, by type. *)
Definition refs_settings (st : AppState) : list (Ref AppSettings) :=
  settings (states st)
  :: opt_list (fun m => [fst (fst m)]) (memo_allProcessedData (cells st))
  ++ opt_list (fun d => [d]) (callback_handleFileUpload (cells st)).

Definition refs_records (st : AppState) : list (Ref (list ProductionRecord)) :=
  uploadedRecords (states st)
  :: opt_list (fun m => [snd (fst m); snd m])
       (memo_allProcessedData (cells st))
  ++ opt_list (fun m => [fst m]) (memo_availableMonths (cells st))
  ++ opt_list (fun m => [fst (fst m); snd m]) (memo_filteredData (cells st))
  ++ opt_list (fun d => [d]) (effect_fetchInsights (cells st)).

Definition refs_months (st : AppState) : list (Ref (list string)) :=
  selectedMonths (states st)
  :: opt_list (fun m => [snd (fst m)]) (memo_filteredData (cells st)).

(** Every memo holds what its factory makes of the dependencies stored
    with it, and the effect has seen the filtered list of the last
    render. *)
Definition memos_ok (c : Cells) : Prop :=
  (forall ds du v, memo_allProcessedData c = Some ((ds, du), v) ->
                   allProcessedData_map (deref ds) (deref du)
                   = Some (deref v)) /\
  (forall d ms, memo_availableMonths c = Some (d, ms) ->
                ms = availableMonths (deref d)) /\
  (forall da dm v, memo_filteredData c = Some ((da, dm), v) ->
                   deref v = filteredData (deref da) (deref dm)) /\
  effect_fetchInsights c = option_map snd (memo_filteredData c).

Definition Inv (st : AppState) : Prop :=
  heap_ok (next_addr (world st)) (refs_settings st) /\
  heap_ok (next_addr (world st)) (refs_records st) /\
  heap_ok (next_addr (world st)) (refs_months st) /\
  memos_ok (cells st).

(** What the invariant reads of a state. *)
Definition footprint (st : AppState) :=
  (next_addr (world st), settings (states st),
   uploadedRecords (states st), selectedMonths (states st), cells st).

(** The state a render commits, before its effects run. *)
Definition committed (st : AppState)
  (v f : Ref (list ProductionRecord)) (n' : nat) : AppState :=
  let s := states st in
  mkAppState s
    (mkCells (Some ((settings s, uploadedRecords s), v))
       (Some (v, availableMonths (deref v)))
       (Some ((v, selectedMonths s), f))
       (Some f) (Some (settings s)))
    (set_next_addr n' (world st)).

(** The loading flag and the pending calls: every pending call is a
    logged one, and the flag is on only while a call is pending. *)
Definition insights_ok (st : AppState) : Prop :=
  Forall (fun call => call < List.length (insightCalls (world st)))
    (pendingInsights (world st)) /\
  (isAiLoading (states st) = true -> pendingInsights (world st) <> []).

(** The cells a render leaves: every dependency stored is the current
    object. *)
Definition canonical (st : AppState) : Prop :=
  exists v f,
    cells st
    = mkCells
        (Some ((settings (states st), uploadedRecords (states st)), v))
        (Some (v, availableMonths (deref v)))
        (Some ((v, selectedMonths (states st)), f))
        (Some f) (Some (settings (states st))).

(** The events that leave the settings, the store and the selection
    alone: a tab switch, the start of an upload, the arrival of an
    insight and a timer. *)
Definition keeps_dependencies (ev : Event) : bool :=
  match ev with
  | Ev_setActiveTab _ | Ev_upload _ | Ev_insightFulfilled _ _
  | Ev_timeout => true
  | _ => false
  end.

End Notions.

(** * Properties *)

Example monthKey_two_digit_year : monthKey "05.03.24" = Some "2024-03".
Proof. reflexivity. Qed.

Example monthKey_four_digit_year : monthKey "05.03.2024" = Some "2024-03".
Proof. reflexivity. Qed.

Example monthKey_bad_date : monthKey "bad-date" = None.
Proof. reflexivity. Qed.

Example monthKey_short_month : monthKey "5.3.24" = Some "2024-03".
Proof. reflexivity. Qed.

Example availableMonths_example :
  availableMonths
    [rawRecord "a" "05.03.24"; rawRecord "b" "bad-date";
     rawRecord "c" "01.11.2023"; rawRecord "d" "17.3.2024";
     rawRecord "e" "02.04.24"]
  = ["2024-04"; "2024-03"; "2023-11"].
Proof. reflexivity. Qed.

(** ** The string primitives *)

Lemma split_not_nil sep s : JS.split sep s <> [].
Proof.
  destruct s as [|c s]; simpl; [discriminate|].
  destruct (Ascii.eqb c sep); [discriminate|].
  destruct (JS.split sep s); discriminate.
Qed.

Lemma join_split sep s : join sep (JS.split sep s) = s.
Proof.
  induction s as [|c s IH]; simpl; [reflexivity|].
  destruct (Ascii.eqb c sep) eqn:E.
  - apply Ascii.eqb_eq in E; subst c.
    destruct (JS.split sep s) as [|p ps] eqn:Es.
    + now apply split_not_nil in Es.
    + change (String sep (join sep (p :: ps)) = String sep s).
      now rewrite IH.
  - destruct (JS.split sep s) as [|p ps] eqn:Es.
    + now apply split_not_nil in Es.
    + destruct ps as [|q qs]; simpl in *; now f_equal.
Qed.

Lemma split_pieces_clean sep s piece :
  In piece (JS.split sep s) -> contains sep piece = false.
Proof.
  revert piece; induction s as [|c s IH]; simpl; intros piece Hin.
  - destruct Hin as [<-|[]]; reflexivity.
  - destruct (Ascii.eqb c sep) eqn:E.
    + destruct Hin as [<-|Hin]; [reflexivity|now apply IH].
    + destruct (JS.split sep s) as [|p ps] eqn:Es.
      * destruct Hin as [<-|[]]; simpl; now rewrite E.
      * destruct Hin as [<-|Hin]; simpl.
        -- rewrite E; simpl; apply IH; now left.
        -- apply IH; now right.
Qed.

Lemma filler_zero n : forall cur,
  cur = EmptyString \/ cur = "0" -> JS.filler "0" cur n = zeros n.
Proof.
  induction n as [|n IH]; intros cur Hcur; [reflexivity|].
  destruct Hcur as [-> | ->]; simpl; f_equal; apply IH; now left.
Qed.

Lemma padStart_zeros s :
  JS.padStart s 2 "0" = (zeros (2 - String.length s) ++ s)%string.
Proof.
  unfold JS.padStart.
  destruct (Nat.leb 2 (String.length s)) eqn:E.
  - apply Nat.leb_le in E.
    replace (2 - String.length s) with 0 by lia. reflexivity.
  - rewrite filler_zero by now right. reflexivity.
Qed.

(** ** The month key *)

Lemma monthKey_three dd mm yy d :
  JS.split "." d = [dd; mm; yy] ->
  monthKey d =
    Some ((if Nat.eqb (String.length yy) 2 then "20" ++ yy else yy)
          ++ "-" ++ JS.padStart mm 2 "0")%string.
Proof. intros E. unfold monthKey. rewrite E. reflexivity. Qed.

Lemma monthKey_not_three d :
  List.length (JS.split "." d) <> 3 -> monthKey d = None.
Proof.
  intros E. unfold monthKey.
  apply Nat.eqb_neq in E. now rewrite E.
Qed.

Lemma monthKey_some_three d key :
  monthKey d = Some key -> List.length (JS.split "." d) = 3.
Proof.
  unfold monthKey.
  destruct (Nat.eqb (List.length (JS.split "." d)) 3) eqn:E; [|discriminate].
  intros _. now apply Nat.eqb_eq.
Qed.

Lemma availableMonths_skips rec before after :
  monthKey (datum rec) = None ->
  availableMonths (before ++ rec :: after) = availableMonths (before ++ after).
Proof.
  intros E. unfold availableMonths.
  rewrite !fold_left_app. simpl.
  unfold availableMonths_visit at 2. now rewrite E.
Qed.

(** C2. A date that splits on "." into exactly three components has the
    month key YYYY-MM, where MM is the second component left-padded with
    zeros to two characters and YYYY is "20" followed by the third
    component when that has two characters, and the third component
    itself when it has four.  A date with any other number of components
    has no month key, and a record carrying it adds nothing to
    [availableMonths]. *)
Theorem monthKey_derivation (d : string) :
  (forall dd mm yy,
      JS.split "." d = [dd; mm; yy] ->
      exists YYYY MM,
        monthKey d = Some (YYYY ++ "-" ++ MM)%string /\
        MM = (zeros (2 - String.length mm) ++ mm)%string /\
        (String.length yy = 2 -> YYYY = ("20" ++ yy)%string) /\
        (String.length yy = 4 -> YYYY = yy)) /\
  (List.length (JS.split "." d) <> 3 ->
   monthKey d = None /\
   forall rec before after,
     datum rec = d ->
     availableMonths (before ++ rec :: after)
     = availableMonths (before ++ after)).
Proof.
  split.
  - intros dd mm yy E.
    exists (if Nat.eqb (String.length yy) 2 then "20" ++ yy else yy)%string,
           (JS.padStart mm 2 "0").
    split; [now apply monthKey_three with dd|].
    split; [apply padStart_zeros|].
    split; intros ->; reflexivity.
  - intros E. split; [now apply monthKey_not_three|].
    intros rec before after <-.
    apply availableMonths_skips. now apply monthKey_not_three.
Qed.

Lemma monthKey_derivation_witness :
  (exists YYYY MM,
      monthKey "5.3.24" = Some (YYYY ++ "-" ++ MM)%string /\
      MM = "03" /\
      (String.length "24" = 2 -> YYYY = "2024") /\
      (String.length "24" = 4 -> YYYY = "24")) /\
  monthKey "bad-date" = None.
Proof.
  split.
  - exact (proj1 (monthKey_derivation "5.3.24") "5" "3" "24" eq_refl).
  - apply (proj2 (monthKey_derivation "bad-date")). simpl. lia.
Defined.

(** ** Filtering *)

Lemma includes_In arr x : JS.includes arr x = true <-> In x arr.
Proof.
  unfold JS.includes. rewrite existsb_exists. split.
  - intros [y [Hy E]]. apply String.eqb_eq in E. now subst.
  - intros Hx. exists x. split; [assumption|apply String.eqb_refl].
Qed.

Lemma filteredData_keep_iff sel rec :
  filteredData_keep sel rec = true <->
  exists key, monthKey (datum rec) = Some key /\ In key sel.
Proof.
  unfold filteredData_keep. destruct (monthKey (datum rec)) as [key|].
  - rewrite includes_In. split.
    + intros Hin. now exists key.
    + intros [k [[= <-] Hin]]. assumption.
  - split; [discriminate|]. intros [k [[=] _]].
Qed.

Lemma selection_empty_length (sel : list string) :
  Nat.eqb (List.length sel) 0 = true <-> sel = [].
Proof.
  destruct sel; simpl; split; try reflexivity; discriminate.
Qed.

Lemma filteredData_empty data : filteredData data [] = data.
Proof. reflexivity. Qed.

Lemma filteredData_nonempty data sel :
  sel <> [] -> filteredData data sel = filter (filteredData_keep sel) data.
Proof.
  intros Hsel. unfold filteredData.
  destruct (Nat.eqb (List.length sel) 0) eqn:E; [|reflexivity].
  now apply selection_empty_length in E.
Qed.

(** C3. With an empty selection filtering returns the list unchanged.
    With a non-empty selection it returns, in place, exactly the records
    whose month key is a member of the selection; a record without a
    month key is left out then, and is kept when the selection is
    empty. *)
Theorem filteredData_semantics (data : list ProductionRecord)
  (sel : list string) :
  (sel = [] -> filteredData data sel = data) /\
  (sel <> [] ->
   (exists keep : ProductionRecord -> bool,
       (forall rec, keep rec = true <->
                    exists key, monthKey (datum rec) = Some key /\ In key sel)
       /\ filteredData data sel = filter keep data) /\
   (forall rec, In rec (filteredData data sel) <->
                In rec data /\
                exists key, monthKey (datum rec) = Some key /\ In key sel) /\
   (forall rec, monthKey (datum rec) = None ->
                ~ In rec (filteredData data sel))) /\
  (forall rec, monthKey (datum rec) = None -> In rec data ->
               In rec (filteredData data [])).
Proof.
  split; [intros ->; apply filteredData_empty|].
  split; [|intros rec _ Hin; exact Hin].
  intros Hsel. rewrite (filteredData_nonempty data sel Hsel).
  split; [|split].
  - exists (filteredData_keep sel). split; [|reflexivity].
    intros rec. apply filteredData_keep_iff.
  - intros rec. rewrite filter_In, filteredData_keep_iff. reflexivity.
  - intros rec Hnone Hin. apply filter_In in Hin.
    destruct Hin as [_ Hkeep]. apply filteredData_keep_iff in Hkeep.
    destruct Hkeep as [key [Hkey _]]. congruence.
Qed.

Lemma filteredData_semantics_witness :
  filteredData sampleData [] = sampleData /\
  ~ In (rawRecord "b" "bad-date") (filteredData sampleData ["2024-03"]) /\
  In (rawRecord "b" "bad-date") (filteredData sampleData []).
Proof.
  split; [|split].
  - exact (proj1 (filteredData_semantics sampleData []) eq_refl).
  - refine (proj2 (proj2 (proj1 (proj2
             (filteredData_semantics sampleData ["2024-03"])) _)) _ _).
    + discriminate.
    + reflexivity.
  - refine (proj2 (proj2 (filteredData_semantics sampleData [])) _ _ _).
    + reflexivity.
    + simpl. right. left. reflexivity.
Defined.

Example filteredData_example :
  filteredData sampleData ["2024-03"]
  = [rawRecord "a" "05.03.24"; rawRecord "d" "17.3.2024";
     rawRecord "a" "05.03.24"].
Proof. reflexivity. Qed.

Lemma sublist_filter {A : Type} (p : A -> bool) (l : list A) :
  sublist (filter p l) l.
Proof.
  induction l as [|x l IH]; simpl; [constructor|].
  destruct (p x); now constructor.
Qed.

Lemma sublist_In {A : Type} (l1 l2 : list A) :
  sublist l1 l2 -> forall x, In x l1 -> In x l2.
Proof.
  induction 1; intros y Hy; simpl in *; intuition.
Qed.

Lemma filter_filter_absorb {A : Type} (p keep : A -> bool) (l : list A) :
  (forall x, p x = true -> keep x = true) ->
  filter p (filter keep l) = filter p l.
Proof.
  intros Hp. induction l as [|x l IH]; simpl; [reflexivity|].
  destruct (keep x) eqn:Ek; simpl.
  - now rewrite IH.
  - destruct (p x) eqn:Ep; [|assumption].
    apply Hp in Ep. congruence.
Qed.

(** C10. With a non-empty selection the filtered list is the input with
    some records left out: the records that stay are the input's own
    records, in their order, and any kind of record that the selection
    retains occurs as often in the result as in the input. *)
Theorem filteredData_sublist (data : list ProductionRecord)
  (sel : list string) :
  sel <> [] ->
  sublist (filteredData data sel) data /\
  (forall rec, In rec (filteredData data sel) -> In rec data) /\
  (forall kind : ProductionRecord -> bool,
      (forall rec, kind rec = true -> filteredData_keep sel rec = true) ->
      filter kind (filteredData data sel) = filter kind data).
Proof.
  intros Hsel. rewrite (filteredData_nonempty data sel Hsel).
  split; [apply sublist_filter|].
  split.
  - apply sublist_In, sublist_filter.
  - intros kind Hkind. now apply filter_filter_absorb.
Qed.

Lemma filteredData_sublist_witness :
  sublist (filteredData sampleData ["2024-03"; "2023-11"]) sampleData.
Proof.
  refine (proj1 (filteredData_sublist sampleData ["2024-03"; "2023-11"] _)).
  discriminate.
Defined.

(** ** The order of [sort] *)

Lemma ascii_compare_refl a : Ascii.compare a a = Eq.
Proof. unfold Ascii.compare. apply N.compare_refl. Qed.

Lemma ascii_compare_lt_trans a b c :
  Ascii.compare a b = Lt -> Ascii.compare b c = Lt -> Ascii.compare a c = Lt.
Proof.
  unfold Ascii.compare. rewrite !N.compare_lt_iff. apply N.lt_trans.
Qed.

Lemma string_compare_lt_trans : forall a b c,
  String.compare a b = Lt -> String.compare b c = Lt ->
  String.compare a c = Lt.
Proof.
  induction a as [|x a IH]; intros [|y b] [|z c]; simpl;
    try discriminate; try reflexivity.
  destruct (Ascii.compare x y) eqn:Exy; try discriminate;
    destruct (Ascii.compare y z) eqn:Eyz; try discriminate; intros Hab Hbc.
  - apply Ascii.compare_eq_iff in Exy, Eyz. subst.
    rewrite ascii_compare_refl. now apply IH with b.
  - apply Ascii.compare_eq_iff in Exy. subst. now rewrite Eyz.
  - apply Ascii.compare_eq_iff in Eyz. subst. now rewrite Exy.
  - now rewrite (ascii_compare_lt_trans x y z).
Qed.

Lemma string_compare_refl a : String.compare a a = Eq.
Proof.
  induction a as [|x a IH]; simpl; [reflexivity|].
  now rewrite ascii_compare_refl.
Qed.

Lemma string_leb_cases a b :
  String.leb a b = true <-> a = b \/ String.ltb a b = true.
Proof.
  unfold String.leb, String.ltb.
  destruct (String.compare a b) eqn:E.
  - apply String.compare_eq_iff in E. intuition.
  - intuition.
  - split; [discriminate|]. intros [->|]; [|discriminate].
    rewrite string_compare_refl in E. discriminate.
Qed.

Lemma string_ltb_trans a b c :
  String.ltb a b = true -> String.ltb b c = true -> String.ltb a c = true.
Proof.
  unfold String.ltb.
  destruct (String.compare a b) eqn:Eab; try discriminate.
  destruct (String.compare b c) eqn:Ebc; try discriminate.
  now rewrite (string_compare_lt_trans a b c).
Qed.

Lemma string_leb_trans a b c :
  String.leb a b = true -> String.leb b c = true -> String.leb a c = true.
Proof.
  rewrite !string_leb_cases.
  intros [->|Hab] [->|Hbc]; auto.
  right. now apply string_ltb_trans with b.
Qed.

Lemma sort_insert_perm x l : Permutation (JS.sort_insert x l) (x :: l).
Proof.
  induction l as [|y l IH]; simpl; [reflexivity|].
  destruct (String.leb x y); [reflexivity|].
  rewrite IH. apply perm_swap.
Qed.

Lemma sort_perm l : Permutation (JS.sort l) l.
Proof.
  induction l as [|x l IH]; simpl; [reflexivity|].
  fold (JS.sort l). rewrite sort_insert_perm. now constructor.
Qed.

Lemma sort_insert_sorted x l :
  StronglySorted (fun a b => String.leb a b = true) l ->
  StronglySorted (fun a b => String.leb a b = true) (JS.sort_insert x l).
Proof.
  induction 1 as [|y l Hl IH Hy]; simpl.
  - repeat constructor.
  - destruct (String.leb x y) eqn:E.
    + constructor; [now constructor|].
      constructor; [assumption|].
      eapply Forall_impl; [|exact Hy].
      intros z Hz. now apply string_leb_trans with y.
    + constructor; [assumption|].
      rewrite Forall_forall. intros z Hz.
      apply (Permutation_in _ (sort_insert_perm x l)) in Hz.
      destruct Hz as [<-|Hz].
      * destruct (String.leb_total x y); congruence.
      * rewrite Forall_forall in Hy. now apply Hy.
Qed.

Lemma sort_sorted l :
  StronglySorted (fun a b => String.leb a b = true) (JS.sort l).
Proof.
  induction l as [|x l IH]; simpl; [constructor|].
  now apply sort_insert_sorted.
Qed.

Lemma sorted_strict l :
  NoDup l ->
  StronglySorted (fun a b => String.leb a b = true) l ->
  StronglySorted (fun a b => String.ltb a b = true) l.
Proof.
  intros Hnd Hs. induction Hs as [|x l Hl IH Hx]; [constructor|].
  inversion Hnd as [|? ? Hnotin Hnd']; subst.
  constructor; [now apply IH|].
  rewrite Forall_forall in *. intros y Hy.
  destruct (proj1 (string_leb_cases x y) (Hx y Hy)) as [->|]; [|assumption].
  contradiction.
Qed.

Lemma sorted_rev {A : Type} (R : A -> A -> Prop) l :
  StronglySorted R l -> StronglySorted (fun a b => R b a) (rev l).
Proof.
  induction 1 as [|x l Hl IH Hx]; simpl; [constructor|].
  assert (Happ : forall l1,
             StronglySorted (fun a b => R b a) l1 ->
             Forall (fun a => R x a) l1 ->
             StronglySorted (fun a b => R b a) (l1 ++ [x])).
  { induction 1 as [|y l1 Hl1 IH1 Hy]; simpl; intros Hall.
    - repeat constructor.
    - inversion Hall; subst. constructor; [now apply IH1|].
      apply Forall_app. split; [assumption|]. now repeat constructor. }
  apply Happ; [assumption|].
  rewrite Forall_forall in *. intros y Hy. apply Hx. now apply in_rev.
Qed.

(** ** The available months *)

Lemma Set_add_In s x y : In y (JS.Set_add s x) <-> In y s \/ y = x.
Proof.
  unfold JS.Set_add. destruct (JS.includes s x) eqn:E.
  - apply includes_In in E. split; [now left|]. intros [H| ->]; assumption.
  - rewrite in_app_iff. simpl. intuition.
Qed.

Lemma Set_add_NoDup s x : NoDup s -> NoDup (JS.Set_add s x).
Proof.
  intros Hnd. unfold JS.Set_add. destruct (JS.includes s x) eqn:E.
  - assumption.
  - apply NoDup_app; [assumption|repeat constructor; intros []|].
    intros y Hy [<-|[]].
    apply includes_In in Hy. congruence.
Qed.

Lemma months_fold_In data : forall months key,
  In key (fold_left availableMonths_visit data months) <->
  In key months \/
  exists rec, In rec data /\ monthKey (datum rec) = Some key.
Proof.
  induction data as [|r data IH]; intros months key; simpl.
  - split; [now left|]. intros [Hin|[rec [Hf _]]]; [assumption|destruct Hf].
  - rewrite IH. unfold availableMonths_visit.
    destruct (monthKey (datum r)) as [k|] eqn:Ek.
    + rewrite Set_add_In. split.
      * intros [[Hin| ->]|[rec [Hin Hk]]]; eauto.
      * intros [Hin|[rec [[<-|Hin] Hk]]]; eauto.
        left. right. congruence.
    + split.
      * intros [Hin|[rec [Hin Hk]]]; eauto.
      * intros [Hin|[rec [[<-|Hin] Hk]]]; eauto. congruence.
Qed.

Lemma months_fold_NoDup data : forall months,
  NoDup months -> NoDup (fold_left availableMonths_visit data months).
Proof.
  induction data as [|r data IH]; intros months Hnd; simpl; [assumption|].
  apply IH. unfold availableMonths_visit.
  destruct (monthKey (datum r)); [now apply Set_add_NoDup|assumption].
Qed.

Lemma availableMonths_In data key :
  In key (availableMonths data) <->
  exists rec, In rec data /\ monthKey (datum rec) = Some key.
Proof.
  unfold availableMonths, JS.reverse, JS.Array_from.
  rewrite <- in_rev.
  split.
  - intros Hin. apply (Permutation_in _ (sort_perm _)) in Hin.
    apply months_fold_In in Hin. destruct Hin as [[]|Hin]. assumption.
  - intros Hex.
    apply (Permutation_in _ (Permutation_sym (sort_perm _))).
    apply months_fold_In. now right.
Qed.

Lemma availableMonths_NoDup data : NoDup (availableMonths data).
Proof.
  unfold availableMonths, JS.reverse, JS.Array_from.
  apply NoDup_rev.
  apply (Permutation_NoDup (Permutation_sym (sort_perm _))).
  apply months_fold_NoDup. constructor.
Qed.

Lemma availableMonths_descending data : descending (availableMonths data).
Proof.
  unfold descending, availableMonths, JS.reverse, JS.Array_from.
  apply (sorted_rev (fun a b => String.ltb a b = true)).
  apply sorted_strict; [|apply sort_sorted].
  apply (Permutation_NoDup (Permutation_sym (sort_perm _))).
  apply months_fold_NoDup. constructor.
Qed.

(** ** Calendar order of month keys *)

Lemma digit_compare a b :
  a < 10 -> b < 10 -> Ascii.compare (digit a) (digit b) = Nat.compare a b.
Proof.
  intros Ha Hb. unfold Ascii.compare, digit, ascii_of_nat.
  rewrite !N_ascii_embedding by lia.
  rewrite <- Nat2N.inj_compare.
  destruct (Nat.compare_spec a b), (Nat.compare_spec (48 + a) (48 + b));
    try reflexivity; lia.
Qed.

Lemma compare_quot_rem P qa ra qb rb :
  ra < P -> rb < P ->
  Nat.compare (P * qa + ra) (P * qb + rb)
  = match Nat.compare qa qb with
    | Eq => Nat.compare ra rb
    | ne => ne
    end.
Proof.
  intros Hra Hrb.
  destruct (Nat.compare_spec qa qb) as [E|E|E].
  - subst qb.
    destruct (Nat.compare_spec ra rb),
      (Nat.compare_spec (P * qa + ra) (P * qa + rb)); try reflexivity; lia.
  - apply Nat.compare_lt_iff. nia.
  - apply Nat.compare_gt_iff. nia.
Qed.

Lemma digits_compare w : forall a b,
  a < 10 ^ w -> b < 10 ^ w ->
  String.compare (digits w a) (digits w b) = Nat.compare a b.
Proof.
  induction w as [|w IH]; intros a b Ha Hb.
  - rewrite Nat.pow_0_r in Ha, Hb.
    assert (a = 0) by lia. assert (b = 0) by lia. now subst.
  - rewrite Nat.pow_succ_r' in Ha, Hb.
    assert (Hp : 10 ^ w <> 0) by (apply Nat.pow_nonzero; lia).
    change (digits (S w) a)
      with (String (digit (a / 10 ^ w)) (digits w (a mod 10 ^ w))).
    change (digits (S w) b)
      with (String (digit (b / 10 ^ w)) (digits w (b mod 10 ^ w))).
    cbn [String.compare].
    pose proof (Nat.mod_upper_bound a (10 ^ w) Hp) as Hra.
    pose proof (Nat.mod_upper_bound b (10 ^ w) Hp) as Hrb.
    assert (Hqa : a / 10 ^ w < 10)
      by (apply Nat.Div0.div_lt_upper_bound; lia).
    assert (Hqb : b / 10 ^ w < 10)
      by (apply Nat.Div0.div_lt_upper_bound; lia).
    rewrite digit_compare by assumption.
    rewrite IH by assumption.
    rewrite (Nat.div_mod_eq a (10 ^ w)) at 3.
    rewrite (Nat.div_mod_eq b (10 ^ w)) at 3.
    now rewrite compare_quot_rem by assumption.
Qed.

Lemma compare_append_same p : forall s t,
  String.compare (p ++ s) (p ++ t) = String.compare s t.
Proof.
  induction p as [|c p IH]; intros s t; simpl; [reflexivity|].
  now rewrite ascii_compare_refl.
Qed.

Lemma compare_append_differ : forall p q s t,
  String.length p = String.length q ->
  String.compare p q <> Eq ->
  String.compare (p ++ s) (q ++ t) = String.compare p q.
Proof.
  induction p as [|c p IH]; intros [|d q] s t Hlen Hne; simpl in *;
    try discriminate.
  - now contradiction Hne.
  - destruct (Ascii.compare c d); try reflexivity.
    apply IH; [lia|assumption].
Qed.

Lemma digits_length w : forall n, String.length (digits w n) = w.
Proof.
  induction w as [|w IH]; intros n; simpl; [reflexivity|now rewrite IH].
Qed.

Lemma digits_inj w a b :
  a < 10 ^ w -> b < 10 ^ w -> digits w a = digits w b -> a = b.
Proof.
  intros Ha Hb E. apply Nat.compare_eq.
  rewrite <- (digits_compare w a b Ha Hb), E. apply string_compare_refl.
Qed.

(** For four-digit years the order of [sort] is the order of time. *)
Lemma calendarKey_ltb y1 m1 y2 m2 :
  y1 < 10 ^ 4 -> y2 < 10 ^ 4 -> m1 < 10 ^ 2 -> m2 < 10 ^ 2 ->
  (String.ltb (calendarKey y1 m1) (calendarKey y2 m2) = true <->
   y1 < y2 \/ (y1 = y2 /\ m1 < m2)).
Proof.
  intros Hy1 Hy2 Hm1 Hm2. unfold String.ltb, calendarKey.
  destruct (Nat.compare_spec y1 y2) as [E|E|E].
  - subst y2. rewrite !compare_append_same.
    rewrite (digits_compare 2 m1 m2 Hm1 Hm2). clear Hy1 Hy2 Hm1 Hm2.
    destruct (Nat.compare_spec m1 m2); split; intros Hx;
      try discriminate; try reflexivity; lia.
  - rewrite compare_append_differ;
      rewrite ?digits_length, ?(digits_compare 4 y1 y2 Hy1 Hy2);
      try reflexivity; clear Hy1 Hy2 Hm1 Hm2;
      pose proof E as E'; apply Nat.compare_lt_iff in E'; rewrite E'.
    + split; [intros _; now left|reflexivity].
    + discriminate.
  - rewrite compare_append_differ;
      rewrite ?digits_length, ?(digits_compare 4 y1 y2 Hy1 Hy2);
      try reflexivity; clear Hy1 Hy2 Hm1 Hm2;
      pose proof E as E'; apply Nat.compare_gt_iff in E'; rewrite E'.
    + split; [discriminate|lia].
    + discriminate.
Qed.

Example calendarKey_example : calendarKey 2024 3 = "2024-03".
Proof. reflexivity. Qed.

Lemma descending_nth l :
  descending l ->
  forall i j a b,
    i < j -> nth_error l i = Some a -> nth_error l j = Some b ->
    String.ltb b a = true.
Proof.
  induction 1 as [|x l Hl IH Hx]; intros i j a b Hij Ha Hb.
  - destruct i; discriminate.
  - destruct j as [|j]; [lia|]. destruct i as [|i]; simpl in *.
    + injection Ha as <-. apply nth_error_In in Hb.
      rewrite Forall_forall in Hx. now apply Hx.
    + apply (IH i j); [lia|assumption|assumption].
Qed.

Lemma availableMonths_latest_first data i j y1 m1 y2 m2 :
  i < j ->
  nth_error (availableMonths data) i = Some (calendarKey y1 m1) ->
  nth_error (availableMonths data) j = Some (calendarKey y2 m2) ->
  y1 < 10 ^ 4 -> y2 < 10 ^ 4 -> m1 < 10 ^ 2 -> m2 < 10 ^ 2 ->
  y2 < y1 \/ (y2 = y1 /\ m2 < m1).
Proof.
  intros Hij H1 H2 Hy1 Hy2 Hm1 Hm2.
  apply calendarKey_ltb; try assumption.
  exact (descending_nth _ (availableMonths_descending data) i j _ _ Hij H1 H2).
Qed.

Example monthKey_calendarKey :
  monthKey "05.03.2024" = Some (calendarKey 2024 3) /\
  monthKey "5.11.23" = Some (calendarKey 2023 11).
Proof. split; reflexivity. Qed.

(** ** More on the month key *)

Lemma split_length sep s :
  List.length (JS.split sep s) = S (count_char sep s).
Proof.
  induction s as [|c s IH]; simpl; [reflexivity|].
  destruct (Ascii.eqb c sep); simpl; [now rewrite IH|].
  destruct (JS.split sep s) as [|p ps]; simpl in *; [discriminate|].
  assumption.
Qed.

Lemma split_clean sep s : contains sep s = false -> JS.split sep s = [s].
Proof.
  induction s as [|c s IH]; simpl; [reflexivity|].
  intros E. apply orb_false_iff in E as [Ec Es].
  rewrite Ec, (IH Es). reflexivity.
Qed.

Lemma split_append sep a b :
  contains sep a = false ->
  JS.split sep (a ++ String sep b) = a :: JS.split sep b.
Proof.
  induction a as [|c a IH]; simpl; intros E.
  - now rewrite Ascii.eqb_refl.
  - apply orb_false_iff in E as [Ec Ea].
    rewrite Ec, (IH Ea). reflexivity.
Qed.

Lemma contains_append c a b :
  contains c (a ++ b) = contains c a || contains c b.
Proof.
  induction a as [|x a IH]; simpl; [reflexivity|].
  now rewrite IH, orb_assoc.
Qed.

Lemma split_date day month year :
  contains "." day = false -> contains "." month = false ->
  contains "." year = false ->
  JS.split "." (date day month year) = [day; month; year].
Proof.
  intros Hd Hm Hy. unfold date.
  change ("." ++ month ++ "." ++ year)%string
    with (String "." (month ++ String "." year)).
  rewrite (split_append "." day _ Hd), (split_append "." month _ Hm).
  now rewrite (split_clean "." year Hy).
Qed.

Lemma monthKey_date day month year :
  contains "." day = false -> contains "." month = false ->
  contains "." year = false ->
  monthKey (date day month year)
  = Some ((if Nat.eqb (String.length year) 2 then "20" ++ year else year)
          ++ "-" ++ JS.padStart month 2 "0")%string.
Proof.
  intros Hd Hm Hy. apply monthKey_three with day. now apply split_date.
Qed.

(** X1. A date string has a month key exactly when it contains two
    periods. *)
Theorem monthKey_iff_two_periods (d : string) :
  (exists key, monthKey d = Some key) <-> count_char "." d = 2.
Proof.
  unfold monthKey. rewrite split_length.
  destruct (Nat.eqb (S (count_char "." d)) 3) eqn:E.
  - apply Nat.eqb_eq in E. split; [lia|eauto].
  - apply Nat.eqb_neq in E. split; [intros [key [=]]|lia].
Qed.

(** X2. The month key of day.month.year does not depend on the day; a
    two-character year yy has the key of the year 20yy, and a
    one-character month m the key of the month 0m. *)
Theorem monthKey_collisions (day day' month year : string) :
  contains "." day = false -> contains "." day' = false ->
  contains "." month = false -> contains "." year = false ->
  monthKey (date day month year) = monthKey (date day' month year) /\
  (String.length year = 2 ->
   monthKey (date day month year)
   = monthKey (date day month ("20" ++ year))) /\
  (String.length month = 1 ->
   monthKey (date day month year)
   = monthKey (date day ("0" ++ month) year)).
Proof.
  intros Hd Hd' Hm Hy.
  rewrite (monthKey_date day month year), (monthKey_date day' month year)
    by assumption.
  split; [reflexivity|]. split.
  - intros Hlen. rewrite monthKey_date by assumption.
    simpl String.length. now rewrite Hlen.
  - intros Hlen. rewrite monthKey_date by assumption.
    do 3 f_equal. rewrite !padStart_zeros. simpl String.length.
    rewrite Hlen. reflexivity.
Qed.

Lemma monthKey_collisions_witness :
  monthKey "05.3.24" = monthKey "17.3.24" /\
  monthKey "05.3.24" = monthKey "05.3.2024" /\
  monthKey "05.3.24" = monthKey "05.03.24".
Proof.
  destruct (monthKey_collisions "05" "17" "3" "24"
              eq_refl eq_refl eq_refl eq_refl) as (Hday & Hyear & Hmonth).
  split; [exact Hday|].
  split; [exact (Hyear eq_refl)|exact (Hmonth eq_refl)].
Defined.

(** ** How the month list and the filter compose *)

Lemma string_ltb_irrefl a : String.ltb a a = false.
Proof. unfold String.ltb. now rewrite string_compare_refl. Qed.

Lemma string_ltb_asym a b :
  String.ltb a b = true -> String.ltb b a = true -> False.
Proof.
  intros Hab Hba. pose proof (string_ltb_trans a b a Hab Hba) as E.
  rewrite string_ltb_irrefl in E. discriminate.
Qed.

Lemma sublist_nil_l {A : Type} (l : list A) : sublist [] l.
Proof. induction l; now constructor. Qed.

Lemma descending_tail x l : descending (x :: l) -> descending l.
Proof. intros Hd. now inversion Hd. Qed.

Lemma descending_head x l y :
  descending (x :: l) -> In y l -> String.ltb y x = true.
Proof.
  intros Hd Hy. inversion Hd as [|? ? _ Hall]; subst.
  rewrite Forall_forall in Hall. now apply Hall.
Qed.

(** A strictly descending list that is included in another one is a
    sublist of it. *)
Lemma descending_incl_sublist l2 : forall l1,
  descending l1 -> descending l2 -> incl l1 l2 -> sublist l1 l2.
Proof.
  induction l2 as [|y l2 IH]; intros l1 H1 H2 Hincl.
  - destruct l1 as [|x l1]; [constructor|]. destruct (Hincl x); now left.
  - destruct l1 as [|x l1]; [apply sublist_nil_l|].
    destruct (Hincl x (or_introl eq_refl)) as [<-|Hx].
    + constructor. apply IH;
        [now apply descending_tail with y|now apply descending_tail with y|].
      intros z Hz. destruct (Hincl z (or_intror Hz)) as [<-|Hz2];
        [|assumption].
      pose proof (descending_head _ _ _ H1 Hz) as E.
      rewrite string_ltb_irrefl in E. discriminate.
    + constructor. apply IH;
        [assumption|now apply descending_tail with y|].
      intros z Hz. destruct (Hincl z Hz) as [<-|Hz2]; [|assumption].
      exfalso. pose proof (descending_head _ _ _ H2 Hx) as Exy.
      destruct Hz as [->|Hz].
      * rewrite string_ltb_irrefl in Exy. discriminate.
      * apply (string_ltb_asym x y); [assumption|].
        now apply (descending_head _ _ _ H1).
Qed.

Lemma sublist_length {A : Type} (l1 l2 : list A) :
  sublist l1 l2 -> List.length l1 <= List.length l2.
Proof. induction 1; simpl; lia. Qed.

Lemma sublist_same_length {A : Type} (l1 l2 : list A) :
  sublist l1 l2 -> List.length l2 <= List.length l1 -> l1 = l2.
Proof.
  induction 1 as [|x l1 l2 Hs IH|x l1 l2 Hs IH]; simpl; intros Hlen.
  - reflexivity.
  - f_equal. apply IH. lia.
  - apply sublist_length in Hs. lia.
Qed.

(** Two strictly descending lists with the same elements are equal. *)
Lemma descending_unique l1 l2 :
  descending l1 -> descending l2 ->
  (forall k, In k l1 <-> In k l2) -> l1 = l2.
Proof.
  intros H1 H2 Hsame.
  assert (S12 : sublist l1 l2)
    by (apply descending_incl_sublist; try assumption;
        intros k; apply Hsame).
  assert (S21 : sublist l2 l1)
    by (apply descending_incl_sublist; try assumption;
        intros k; apply Hsame).
  apply sublist_same_length; [assumption|].
  now apply sublist_length.
Qed.

(** X3. The month list depends only on which month keys occur among the
    records, not on their order or number: two data sets with the same
    keys have the same month list. *)
Theorem availableMonths_by_keys (data1 data2 : list ProductionRecord) :
  (forall key,
      (exists rec, In rec data1 /\ monthKey (datum rec) = Some key) <->
      (exists rec, In rec data2 /\ monthKey (datum rec) = Some key)) ->
  availableMonths data1 = availableMonths data2.
Proof.
  intros Hkeys. apply descending_unique; try apply availableMonths_descending.
  intros key. now rewrite !availableMonths_In.
Qed.

Lemma availableMonths_by_keys_witness :
  availableMonths (rev sampleData ++ sampleData) = availableMonths sampleData.
Proof.
  apply availableMonths_by_keys. intros key. split.
  - intros [rec [Hin Hkey]]. exists rec. split; [|assumption].
    apply in_app_or in Hin. destruct Hin as [Hin|Hin]; [|assumption].
    now apply in_rev.
  - intros [rec [Hin Hkey]]. exists rec. split; [|assumption].
    apply in_or_app. now right.
Defined.

(** X4. Appending records never removes a month from the list nor moves
    one: the month list of the old records is the new list with the new
    months left out, and the new list holds the months of both parts. *)
Theorem availableMonths_append (old new : list ProductionRecord) :
  sublist (availableMonths old) (availableMonths (old ++ new)) /\
  sublist (availableMonths new) (availableMonths (old ++ new)) /\
  forall key,
    In key (availableMonths (old ++ new)) <->
    In key (availableMonths old) \/ In key (availableMonths new).
Proof.
  assert (Hin : forall key,
             In key (availableMonths (old ++ new)) <->
             In key (availableMonths old) \/ In key (availableMonths new)).
  { intros key. rewrite !availableMonths_In. split.
    - intros [rec [Hrec Hkey]]. apply in_app_or in Hrec.
      destruct Hrec; [left|right]; now exists rec.
    - intros [[rec [Hrec Hkey]]|[rec [Hrec Hkey]]]; exists rec;
        (split; [apply in_or_app; tauto|assumption]). }
  split; [|split; [|exact Hin]];
    apply descending_incl_sublist; try apply availableMonths_descending;
    intros key Hkey; apply Hin; tauto.
Qed.

(** X5. Filtering distributes over appending: the filtered view of a
    grown store is the old filtered view followed by the filtered new
    records. *)
Theorem filteredData_append (old new : list ProductionRecord)
  (sel : list string) :
  filteredData (old ++ new) sel
  = filteredData old sel ++ filteredData new sel.
Proof.
  unfold filteredData.
  destruct (Nat.eqb (List.length sel) 0); [reflexivity|apply filter_app].
Qed.

Lemma filter_filter_comm {A : Type} (p q : A -> bool) (l : list A) :
  filter p (filter q l) = filter q (filter p l).
Proof.
  induction l as [|x l IH]; simpl; [reflexivity|].
  destruct (p x) eqn:Ep, (q x) eqn:Eq; simpl; rewrite ?Ep, ?Eq, IH;
    reflexivity.
Qed.

(** X6. Filtering twice with the same selection changes nothing more,
    and filtering with two selections gives the same list in either
    order. *)
Theorem filteredData_twice (data : list ProductionRecord)
  (sel sel' : list string) :
  filteredData (filteredData data sel) sel = filteredData data sel /\
  filteredData (filteredData data sel) sel'
  = filteredData (filteredData data sel') sel.
Proof.
  unfold filteredData.
  destruct (Nat.eqb (List.length sel) 0), (Nat.eqb (List.length sel') 0);
    repeat split; try reflexivity;
    try (apply filter_filter_absorb; now intros rec Hrec);
    apply filter_filter_comm.
Qed.

Lemma filter_nil_iff {A : Type} (p : A -> bool) (l : list A) :
  filter p l = [] <-> forall x, In x l -> p x = false.
Proof.
  induction l as [|x l IH]; simpl.
  - split; [intros _ x []|reflexivity].
  - destruct (p x) eqn:E.
    + split; [discriminate|]. intros Hall.
      rewrite (Hall x (or_introl eq_refl)) in E. discriminate.
    + rewrite IH. split.
      * intros Hall y [<-|Hy]; [assumption|now apply Hall].
      * intros Hall y Hy. apply Hall. now right.
Qed.

(** X7. With a non-empty selection the filtered list is empty exactly
    when none of the selected months is in the month list: selecting a
    month that the list offers never yields an empty result. *)
Theorem filteredData_empty_iff (data : list ProductionRecord)
  (sel : list string) :
  sel <> [] ->
  (filteredData data sel = [] <->
   forall key, In key sel -> ~ In key (availableMonths data)).
Proof.
  intros Hsel. rewrite (filteredData_nonempty data sel Hsel), filter_nil_iff.
  split.
  - intros Hnone key Hkey Hav. apply availableMonths_In in Hav.
    destruct Hav as [rec [Hrec Hk]].
    assert (filteredData_keep sel rec = true)
      by (apply filteredData_keep_iff; now exists key).
    rewrite (Hnone rec Hrec) in *. discriminate.
  - intros Hnone rec Hrec.
    destruct (filteredData_keep sel rec) eqn:E; [|reflexivity].
    apply filteredData_keep_iff in E. destruct E as [key [Hk Hkey]].
    exfalso. apply (Hnone key Hkey). apply availableMonths_In.
    now exists rec.
Qed.

Lemma filteredData_empty_iff_witness :
  filteredData sampleData ["1999-01"; "2030-12"] = [].
Proof.
  apply (proj2 (filteredData_empty_iff sampleData ["1999-01"; "2030-12"]
                  ltac:(discriminate))).
  intros key [<-|[<-|[]]]; vm_compute;
    intros [E|[E|[E|[]]]]; discriminate E.
Defined.

(** X8. With a non-empty selection the months of the filtered records
    are the selected months that the month list offers, in the order of
    the month list. *)
Theorem availableMonths_of_filtered (data : list ProductionRecord)
  (sel : list string) :
  sel <> [] ->
  sublist (availableMonths (filteredData data sel)) (availableMonths data) /\
  forall key,
    In key (availableMonths (filteredData data sel)) <->
    In key sel /\ In key (availableMonths data).
Proof.
  intros Hsel.
  assert (Hin : forall key,
             In key (availableMonths (filteredData data sel)) <->
             In key sel /\ In key (availableMonths data)).
  { intros key. rewrite !availableMonths_In.
    rewrite (filteredData_nonempty data sel Hsel). split.
    - intros [rec [Hrec Hk]]. apply filter_In in Hrec as [Hrec Hkeep].
      apply filteredData_keep_iff in Hkeep as [key' [Hk' Hkey']].
      assert (key' = key) as -> by congruence.
      split; [assumption|now exists rec].
    - intros [Hkey [rec [Hrec Hk]]]. exists rec. split; [|assumption].
      apply filter_In. split; [assumption|].
      apply filteredData_keep_iff. now exists key. }
  split; [|exact Hin].
  apply descending_incl_sublist; try apply availableMonths_descending.
  intros key Hkey. now apply Hin in Hkey.
Qed.

Lemma availableMonths_of_filtered_witness :
  sublist (availableMonths (filteredData sampleData ["2023-11"; "2024-04"]))
    (availableMonths sampleData).
Proof.
  apply (availableMonths_of_filtered sampleData ["2023-11"; "2024-04"]).
  discriminate.
Defined.

Lemma sublist_filter_impl {A : Type} (p q : A -> bool) (l : list A) :
  (forall x, p x = true -> q x = true) ->
  sublist (filter p l) (filter q l).
Proof.
  intros Hpq. induction l as [|x l IH]; simpl; [constructor|].
  destruct (p x) eqn:Ep.
  - rewrite (Hpq x Ep). now constructor.
  - destruct (q x); [now constructor|assumption].
Qed.

(** X9. The filter reads the selection as a set: selecting more months
    only adds records, in place, and two non-empty selections with the
    same months give the same list. *)
Theorem filteredData_selection (data : list ProductionRecord)
  (sel sel' : list string) :
  sel <> [] -> incl sel sel' ->
  sublist (filteredData data sel) (filteredData data sel') /\
  (incl sel' sel -> filteredData data sel = filteredData data sel').
Proof.
  intros Hsel Hincl.
  assert (Hsel' : sel' <> []).
  { destruct sel as [|k sel]; [now contradiction Hsel|].
    intros ->. destruct (Hincl k). now left. }
  rewrite (filteredData_nonempty data sel Hsel),
    (filteredData_nonempty data sel' Hsel').
  split.
  - apply sublist_filter_impl. intros rec Hrec.
    apply filteredData_keep_iff in Hrec as [key [Hk Hkey]].
    apply filteredData_keep_iff. exists key. split; [assumption|].
    now apply Hincl.
  - intros Hincl'. apply filter_ext. intros rec.
    destruct (filteredData_keep sel rec) eqn:E.
    + symmetry. apply filteredData_keep_iff in E as [key [Hk Hkey]].
      apply filteredData_keep_iff. exists key. split; [assumption|].
      now apply Hincl.
    + destruct (filteredData_keep sel' rec) eqn:E'; [|reflexivity].
      apply filteredData_keep_iff in E' as [key [Hk Hkey]].
      assert (filteredData_keep sel rec = true)
        by (apply filteredData_keep_iff; exists key; split;
            [assumption|now apply Hincl']).
      congruence.
Qed.

Lemma filteredData_selection_witness :
  sublist (filteredData sampleData ["2024-03"])
    (filteredData sampleData ["2023-11"; "2024-03"]) /\
  filteredData sampleData ["2024-03"; "2023-11"; "2024-03"]
  = filteredData sampleData ["2023-11"; "2024-03"].
Proof.
  split.
  - apply (filteredData_selection sampleData ["2024-03"]
             ["2023-11"; "2024-03"]); [discriminate|].
    intros key [<-|[]]. simpl. tauto.
  - apply (filteredData_selection sampleData
             ["2024-03"; "2023-11"; "2024-03"] ["2023-11"; "2024-03"]);
      [discriminate| |]; intros key Hkey; simpl in *; tauto.
Defined.

Ltac in_refs E :=
  unfold refs_settings, refs_records, refs_months;
  rewrite ?E; simpl; rewrite ?in_app_iff; simpl; tauto.

Section ComponentProperties.

Context `{Imports}.

(** ** The upload handler *)

Lemma extractAll_fulfilled settings files : forall acc,
  (forall file, In file files -> succeeds settings file) ->
  extractAll files settings acc
  = Fulfilled (acc ++ flat_map (recordsOf settings) files).
Proof.
  induction files as [|file files IH]; intros acc Hall; simpl.
  - now rewrite app_nil_r.
  - destruct (Hall file (or_introl eq_refl)) as [records E].
    unfold recordsOf at 1. rewrite E.
    rewrite IH by (intros f Hf; apply Hall; now right).
    now rewrite app_assoc.
Qed.

Lemma extractAll_rejected settings files : forall acc,
  (exists file, In file files /\ fails settings file) ->
  exists error, extractAll files settings acc = Rejected error.
Proof.
  induction files as [|file files IH]; intros acc [bad [Hin Hbad]].
  - destruct Hin.
  - simpl.
    destruct (parseProductionDataWithAi file settings) as [records|error] eqn:E.
    + apply IH. destruct Hin as [<-|Hin].
      * destruct Hbad as [error Hbad]. congruence.
      * now exists bad.
    + now exists error.
Qed.

Lemma extractAll_inv settings files : forall acc all,
  extractAll files settings acc = Fulfilled all ->
  (forall file, In file files -> succeeds settings file) /\
  all = acc ++ flat_map (recordsOf settings) files.
Proof.
  induction files as [|file files IH]; intros acc all E; simpl in *.
  - injection E as <-. split; [intros f []|now rewrite app_nil_r].
  - unfold recordsOf at 1.
    destruct (parseProductionDataWithAi file settings)
      as [records|error] eqn:Ef;
      [|discriminate].
    apply IH in E. destruct E as [Hall ->]. split.
    + intros f [<-|Hf]; [now exists records|now apply Hall].
    + now rewrite app_assoc.
Qed.

Lemma perform_all_app a b st :
  perform_all (a ++ b) st = perform_all b (perform_all a st).
Proof. unfold perform_all. apply fold_left_app. Qed.

Lemma perform_store a st :
  store (perform a st)
  = match a with
    | SetUploadedRecords l => store st ++ l
    | _ => store st
    end.
Proof. destruct a; reflexivity. Qed.

Lemma perform_no_write a st :
  is_store_write a = false ->
  uploadedRecords (states (perform a st)) = uploadedRecords (states st).
Proof. destruct a; try reflexivity. discriminate. Qed.

Lemma perform_all_no_write actions : forall st,
  filter is_store_write actions = [] ->
  uploadedRecords (states (perform_all actions st))
  = uploadedRecords (states st).
Proof.
  induction actions as [|a actions IH]; intros st E; simpl in *;
    [reflexivity|].
  destruct (is_store_write a) eqn:Ea; [discriminate|].
  unfold perform_all in *. simpl. rewrite IH by assumption.
  now apply perform_no_write.
Qed.

Lemma handleFileUpload_rejected settings files error :
  extractAll files settings [] = Rejected error ->
  handleFileUpload settings files
  = [SetIsParsingPdf true; ConsoleError "Upload failed" error;
     Alert (alertMessage error); SetIsParsingPdf false].
Proof.
  intros E. unfold handleFileUpload, handleFileUpload_resume.
  now rewrite E.
Qed.

Lemma handleFileUpload_fulfilled settings files all :
  extractAll files settings [] = Fulfilled all ->
  handleFileUpload settings files
  = [SetIsParsingPdf true; SetUploadedRecords all;
     SetUploadStats (Some (List.length files, List.length all));
     SetTimeout_clearUploadStats 5000; SetIsParsingPdf false].
Proof.
  intros E. unfold handleFileUpload, handleFileUpload_resume.
  now rewrite E.
Qed.

(** C9. When the extraction of any document of the batch is rejected,
    the handler writes nothing to the store: the store is the same
    array, with the same records, as before the upload, and what the
    earlier documents of the batch had yielded is dropped. *)
Theorem handleFileUpload_failure_keeps_store (settings : AppSettings)
  (files : list File) (st : AppState) :
  (exists file, In file files /\ fails settings file) ->
  filter is_store_write (handleFileUpload settings files) = [] /\
  uploadedRecords
    (states (perform_all (handleFileUpload settings files) st))
  = uploadedRecords (states st) /\
  store_after settings files st = store st.
Proof.
  intros Hbad.
  destruct (extractAll_rejected settings files [] Hbad) as [error E].
  assert (Hw : filter is_store_write (handleFileUpload settings files) = [])
    by now rewrite (handleFileUpload_rejected _ _ _ E).
  split; [assumption|].
  split; [now apply perform_all_no_write|].
  unfold store_after, store. now rewrite perform_all_no_write.
Qed.

(** C1, amended. When the extraction of one document of the batch fails,
    one error is reported (logged and shown in an alert) and the store
    holds exactly the records it held before the upload: records of
    earlier uploads are kept, those of the batch's other documents are
    not added.  When every document of the batch succeeds, the store
    holds its former records followed by the records of all the
    documents, in batch order, and nothing is reported. *)
Theorem handleFileUpload_batch_outcome (settings : AppSettings)
  (files : list File) (st : AppState) :
  ((exists file, In file files /\ fails settings file) ->
   exists error,
     store_after settings files st = store st /\
     alerts (world (perform_all (handleFileUpload settings files) st))
     = alerts (world st) ++ [alertMessage error] /\
     consoleErrors
       (world (perform_all (handleFileUpload settings files) st))
     = consoleErrors (world st) ++ [("Upload failed", error)]) /\
  ((forall file, In file files -> succeeds settings file) ->
   store_after settings files st
   = store st ++ flat_map (recordsOf settings) files /\
   alerts (world (perform_all (handleFileUpload settings files) st))
   = alerts (world st)).
Proof.
  split.
  - intros Hbad.
    destruct (extractAll_rejected settings files [] Hbad) as [error E].
    exists error. unfold store_after, store.
    rewrite (handleFileUpload_rejected _ _ _ E). now split.
  - intros Hall. unfold store_after, store.
    rewrite (handleFileUpload_fulfilled _ _ _
               (extractAll_fulfilled settings files [] Hall)).
    now split.
Qed.

(** ** The hook cells *)

Lemma heap_ok_fresh {A : Type} n (v : A) l :
  heap_ok n l -> heap_ok (S n) (mkRef n v :: l).
Proof.
  intros [Hb Hf]. split.
  - intros r [<-|Hr]; simpl; [lia|]. apply Hb in Hr. lia.
  - intros r1 r2 [<-|H1] [<-|H2]; simpl; intros E; auto.
    + apply Hb in H2. lia.
    + apply Hb in H1. lia.
Qed.

Lemma heap_ok_incl {A : Type} n n' (l l' : list (Ref A)) :
  heap_ok n l -> incl l' l -> n <= n' -> heap_ok n' l'.
Proof.
  intros [Hb Hf] Hincl Hle. split.
  - intros r Hr. apply Hincl, Hb in Hr. lia.
  - intros r1 r2 H1 H2. apply Hf; now apply Hincl.
Qed.

Lemma Object_is_eq {A : Type} n (l : list (Ref A)) x y :
  heap_ok n l -> In x l -> In y l -> Object_is x y = true -> x = y.
Proof.
  intros [_ Hf] Hx Hy E. apply Nat.eqb_eq in E. now apply Hf.
Qed.

Lemma useMemo_spec {D V : Type} same cell deps factory n
      (d : D) (v : V) n' :
  useMemo same cell deps factory n = Some ((d, v), n') ->
  (cell = Some (d, v) /\ same d deps = true /\ n' = n) \/
  (factory n = Some (v, n') /\ d = deps).
Proof.
  unfold useMemo, bind, ret.
  destruct cell as [[d0 v0]|].
  - destruct (same d0 deps) eqn:E.
    + intros [= <- <- <-]. now left.
    + destruct (factory n) as [[v' n1]|]; [|discriminate].
      intros [= <- <- <-]. now right.
  - destruct (factory n) as [[v' n1]|]; [|discriminate].
    intros [= <- <- <-]. now right.
Qed.

Lemma Inv_initial : Inv initialState.
Proof.
  unfold Inv, heap_ok, memos_ok; simpl.
  repeat split; try discriminate;
    intros; repeat match goal with
              | Hx : _ \/ _ |- _ => destruct Hx
              | Hx : False |- _ => destruct Hx
              end; subst; simpl in *; try lia; try reflexivity.
Qed.

Lemma bind_Some {A B : Type} (m : Render A) (k : A -> Render B) n r :
  bind m k n = Some r ->
  exists a n1, m n = Some (a, n1) /\ k a n1 = Some r.
Proof.
  unfold bind. destruct (m n) as [[a n1]|]; [|discriminate].
  intros E. now exists a, n1.
Qed.

Lemma renderMemos_spec st m1 m2 m3 n' :
  Inv st ->
  renderMemos (states st) (cells st) (next_addr (world st))
  = Some ((m1, m2, m3), n') ->
  exists v f,
    let s := states st in
    m1 = ((settings s, uploadedRecords s), v) /\
    m2 = (v, availableMonths (deref v)) /\
    m3 = ((v, selectedMonths s), f) /\
    allProcessedData_map (deref (settings s)) (deref (uploadedRecords s))
    = Some (deref v) /\
    deref f = filteredData (deref v) (deref (selectedMonths s)) /\
    next_addr (world st) <= n' /\
    exists L, heap_ok n' L /\ incl (refs_records st) L /\ In v L /\ In f L.
Proof.
  intros (Hset & Hrec & Hmon & Hm1 & Hm2 & Hm3 & Heff) E.
  unfold renderMemos in E.
  apply bind_Some in E as ([[ds du] v] & n1 & E1 & E).
  apply bind_Some in E as ([da ms] & n2 & E2 & E).
  apply bind_Some in E as ([[df dm] f] & n3 & E3 & E).
  unfold ret in E. injection E as <- <- <- <-.
  simpl snd in *.
  apply useMemo_spec in E1, E2, E3.
  exists v, f. cbv zeta.
  (* the first memo *)
  assert (S1 : (ds, du) = (settings (states st), uploadedRecords (states st))
               /\ allProcessedData_map (deref ds) (deref du) = Some (deref v)
               /\ next_addr (world st) <= n1
               /\ heap_ok n1 (v :: refs_records st)).
  { destruct E1 as [(Ec & Esame & ->)|[Ef [= -> ->]]].
    - unfold same2 in Esame. simpl in Esame.
      apply andb_true_iff in Esame as [Es Eu].
      apply (Object_is_eq _ _ _ _ Hset) in Es;
        [|in_refs Ec|in_refs Ec].
      apply (Object_is_eq _ _ _ _ Hrec) in Eu;
        [|in_refs Ec|in_refs Ec].
      subst ds du. split; [reflexivity|].
      split; [now apply Hm1|]. split; [lia|].
      apply (heap_ok_incl _ _ _ _ Hrec); [|lia].
      intros r [<-|Hr]; [|assumption].
      in_refs Ec.
    - unfold allProcessedData in Ef.
      destruct (allProcessedData_map _ _) as [arr|] eqn:Earr;
        [|discriminate].
      unfold alloc in Ef. injection Ef as <- <-.
      split; [reflexivity|]. split; [reflexivity|]. split; [lia|].
      now apply heap_ok_fresh. }
  destruct S1 as ([= -> ->] & Hv & Hn1 & HL1).
  (* the second memo *)
  assert (S2 : da = v /\ ms = availableMonths (deref v) /\ n2 = n1).
  { destruct E2 as [(Ec & Esame & ->)|[Ef ->]].
    - apply (Object_is_eq _ _ _ _ HL1) in Esame;
        [|right; in_refs Ec|now left].
      subst da. split; [reflexivity|]. split; [now apply Hm2|reflexivity].
    - unfold ret in Ef. injection Ef as <- <-. now repeat split. }
  destruct S2 as (-> & -> & ->).
  (* the third memo *)
  assert (S3 : (df, dm) = (v, selectedMonths (states st))
               /\ deref f = filteredData (deref v)
                              (deref (selectedMonths (states st)))
               /\ n1 <= n3
               /\ heap_ok n3 (f :: v :: refs_records st)).
  { destruct E3 as [(Ec & Esame & ->)|[Ef E]].
    - unfold same2 in Esame. simpl in Esame.
      apply andb_true_iff in Esame as [Ea Em].
      apply (Object_is_eq _ _ _ _ HL1) in Ea;
        [|right; in_refs Ec|now left].
      apply (Object_is_eq _ _ _ _ Hmon) in Em;
        [|in_refs Ec|in_refs Ec].
      subst df dm. split; [reflexivity|]. split; [now apply Hm3|].
      split; [lia|].
      apply (heap_ok_incl _ _ _ _ HL1); [|lia].
      intros r [<-|Hr]; [|assumption].
      right. in_refs Ec.
    - split; [assumption|]. unfold filteredData_memo in Ef.
      destruct (Nat.eqb (List.length (deref (selectedMonths (states st)))) 0)
        eqn:El.
      + unfold ret in Ef. injection Ef as <- <-.
        split; [unfold filteredData; now rewrite El|]. split; [lia|].
        apply (heap_ok_incl _ _ _ _ HL1); [|lia].
        intros r [<-|Hr]; [now left|assumption].
      + unfold alloc in Ef. injection Ef as <- <-.
        split; [reflexivity|]. split; [lia|].
        now apply heap_ok_fresh. }
  destruct S3 as ([= -> ->] & Hf & Hn3 & HL).
  repeat split; try assumption; try lia.
  exists (f :: v :: refs_records st).
  split; [assumption|]. split; [|simpl; tauto].
  intros r Hr. now do 2 right.
Qed.

Lemma Inv_footprint st st' :
  footprint st = footprint st' -> Inv st -> Inv st'.
Proof.
  unfold footprint, Inv, refs_settings, refs_records, refs_months.
  intros [= -> -> -> -> ->]. exact (fun x => x).
Qed.

Lemma fetchInsights_footprint F st :
  footprint (fetchInsights F st) = footprint st.
Proof.
  unfold fetchInsights. now destruct (Nat.ltb 0 (List.length F)).
Qed.

Lemma useCallback_spec st :
  Inv st ->
  useCallback_handleFileUpload (callback_handleFileUpload (cells st))
    (settings (states st))
  = Some (settings (states st)).
Proof.
  intros (Hset & _). unfold useCallback_handleFileUpload.
  destruct (callback_handleFileUpload (cells st)) as [d|] eqn:Ec;
    [|reflexivity].
  destruct (Object_is d (settings (states st))) eqn:E; [|reflexivity].
  apply (Object_is_eq _ _ _ _ Hset) in E; [now subst| |]; in_refs Ec.
Qed.

Lemma render_spec st st' :
  Inv st -> render st = Some st' ->
  exists v f n',
    st' = (if effect_due (effect_fetchInsights (cells st)) f
           then fetchInsights (deref f) (committed st v f n')
           else committed st v f n') /\
    allProcessedData_map (deref (settings (states st)))
      (deref (uploadedRecords (states st))) = Some (deref v) /\
    deref f = filteredData (deref v) (deref (selectedMonths (states st))) /\
    next_addr (world st) <= n' /\
    exists L, heap_ok n' L /\ incl (refs_records st) L /\ In v L /\ In f L.
Proof.
  intros HInv E. unfold render in E.
  destruct (renderMemos _ _ _) as [[[[m1 m2] m3] n']|] eqn:Em;
    [|discriminate].
  destruct (renderMemos_spec _ _ _ _ _ HInv Em)
    as (v & f & -> & -> & -> & Hv & Hf & Hn & HL).
  rewrite (useCallback_spec st HInv) in E. simpl snd in E.
  injection E as <-. exists v, f, n'. now repeat split.
Qed.

Lemma committed_Inv st v f n' :
  Inv st ->
  allProcessedData_map (deref (settings (states st)))
    (deref (uploadedRecords (states st))) = Some (deref v) ->
  deref f = filteredData (deref v) (deref (selectedMonths (states st))) ->
  next_addr (world st) <= n' ->
  (exists L, heap_ok n' L /\ incl (refs_records st) L /\ In v L /\ In f L) ->
  Inv (committed st v f n').
Proof.
  intros (Hset & Hrec & Hmon & _) Hv Hf Hn (L & HL & Hincl & HvL & HfL).
  unfold Inv, committed. simpl. repeat split.
  - intros r Hr. simpl in Hr.
    assert (r = settings (states st)) as -> by intuition.
    apply Nat.lt_le_trans with (next_addr (world st)); [|assumption].
    apply Hset. in_refs Hv.
  - intros r1 r2 H1 H2 _. simpl in H1, H2.
    assert (r1 = settings (states st)) as -> by intuition.
    assert (r2 = settings (states st)) as -> by intuition.
    reflexivity.
  - intros r Hr. apply HL. simpl in Hr.
    assert (Hu : In (uploadedRecords (states st)) L)
      by (apply Hincl; in_refs Hv).
    intuition; now subst.
  - intros r1 r2 H1 H2.
    assert (Hu : In (uploadedRecords (states st)) L)
      by (apply Hincl; in_refs Hv).
    apply HL; simpl in H1, H2; intuition; now subst.
  - intros r Hr. simpl in Hr.
    assert (r = selectedMonths (states st)) as -> by intuition.
    apply Nat.lt_le_trans with (next_addr (world st)); [|assumption].
    apply Hmon. in_refs Hv.
  - intros r1 r2 H1 H2 _. simpl in H1, H2.
    assert (r1 = selectedMonths (states st)) as -> by intuition.
    assert (r2 = selectedMonths (states st)) as -> by intuition.
    reflexivity.
  - intros ds du v0 [= <- <- <-]. assumption.
  - intros d ms [= <- <-]. reflexivity.
  - intros da dm v0 [= <- <- <-]. assumption.
Qed.

Lemma render_Inv st st' : Inv st -> render st = Some st' -> Inv st'.
Proof.
  intros HInv E.
  destruct (render_spec st st' HInv E)
    as (v & f & n' & -> & Hv & Hf & Hn & HL).
  assert (Hc : Inv (committed st v f n')) by now apply committed_Inv.
  destruct (effect_due _ _); [|assumption].
  apply (Inv_footprint (committed st v f n')); [|assumption].
  symmetry. apply fetchInsights_footprint.
Qed.

Lemma heap_ok_head {A : Type} n (x y : Ref A) l :
  heap_ok n (x :: l) -> y = x \/ addr y = n -> heap_ok (S n) (y :: l).
Proof.
  intros Hl [->|E].
  - apply (heap_ok_incl n (S n) (x :: l) (x :: l) Hl); [apply incl_refl|lia].
  - destruct y as [a v]. simpl in E. subst a.
    apply (heap_ok_incl (S n) (S n) (mkRef n v :: x :: l));
      [now apply heap_ok_fresh| |lia].
    intros r [<-|Hr]; simpl; tauto.
Qed.

(** A setter stores a new object and leaves the hook cells alone. *)
Lemma alloc_Inv st st' :
  Inv st ->
  cells st' = cells st ->
  next_addr (world st') = S (next_addr (world st)) ->
  (settings (states st') = settings (states st) \/
   addr (settings (states st')) = next_addr (world st)) ->
  (uploadedRecords (states st') = uploadedRecords (states st) \/
   addr (uploadedRecords (states st')) = next_addr (world st)) ->
  (selectedMonths (states st') = selectedMonths (states st) \/
   addr (selectedMonths (states st')) = next_addr (world st)) ->
  Inv st'.
Proof.
  intros (Hset & Hrec & Hmon & Hm) Ec En Hs Hu Hsel.
  unfold Inv, refs_settings, refs_records, refs_months in *.
  rewrite Ec, En.
  split; [now apply heap_ok_head with (settings (states st))|].
  split; [now apply heap_ok_head with (uploadedRecords (states st))|].
  split; [now apply heap_ok_head with (selectedMonths (states st))|].
  assumption.
Qed.

Lemma perform_Inv a st : Inv st -> Inv (perform a st).
Proof.
  intros HInv.
  destruct a; try (now apply (Inv_footprint st)).
  apply (alloc_Inv st); simpl; auto.
Qed.

Lemma perform_all_Inv actions : forall st,
  Inv st -> Inv (perform_all actions st).
Proof.
  induction actions as [|a actions IH]; intros st HInv; [assumption|].
  apply IH. now apply perform_Inv.
Qed.

Lemma react_Inv ev st st' : Inv st -> react ev st = Some st' -> Inv st'.
Proof.
  intros HInv E. destruct ev; simpl in E.
  - now apply render_Inv with st.
  - injection E as <-. apply (alloc_Inv st); simpl; auto.
  - injection E as <-. now apply (Inv_footprint st).
  - injection E as <-. apply (alloc_Inv st); simpl; auto.
  - destruct (callback_handleFileUpload (cells st)); [|discriminate].
    injection E as <-. now apply (Inv_footprint st).
  - destruct (nth_error _ _) as [[files closedOver]|]; [|discriminate].
    injection E as <-. apply perform_all_Inv.
    now apply (Inv_footprint st).
  - destruct (existsb _ _); [|discriminate].
    injection E as <-. now apply (Inv_footprint st).
  - destruct (pendingTimers (world st)); [discriminate|].
    injection E as <-. now apply (Inv_footprint st).
Qed.

Lemma run_Inv evs : forall st st',
  Inv st -> run evs st = Some st' -> Inv st'.
Proof.
  induction evs as [|ev evs IH]; intros st st' HInv E; simpl in E.
  - now injection E as <-.
  - destruct (react ev st) as [st1|] eqn:E1; [|discriminate].
    apply (IH st1); [|assumption]. now apply react_Inv with ev st.
Qed.

Lemma reachable_Inv st : reachable st -> Inv st.
Proof.
  intros [evs E]. apply (run_Inv evs initialState); [|assumption].
  apply Inv_initial.
Qed.

(** ** What a render hands to the views *)

Lemma allProcessedData_map_from_scratch settings records data :
  allProcessedData_map settings records = Some data <->
  map Some data = from_scratch settings records.
Proof.
  revert data. induction records as [|rec records IH]; intros data; simpl.
  - split; [now intros [= <-]|]. now destruct data.
  - destruct (JS.index0 (processRawData [rec] settings)) as [enriched|].
    + destruct (allProcessedData_map settings records) as [others|].
      * split.
        -- intros [= <-]. simpl. f_equal. now apply IH.
        -- destruct data as [|d data]; [discriminate|].
           simpl. intros [= -> E]. apply IH in E. congruence.
      * split; [discriminate|].
        destruct data as [|d data]; [discriminate|].
        simpl. intros [= -> E]. apply IH in E. discriminate.
    + split; [discriminate|].
      destruct data as [|d data]; discriminate.
Qed.

Lemma render_states st st' :
  render st = Some st' ->
  settings (states st') = settings (states st) /\
  uploadedRecords (states st') = uploadedRecords (states st) /\
  selectedMonths (states st') = selectedMonths (states st).
Proof.
  unfold render.
  destruct (renderMemos _ _ _) as [[[[m1 m2] m3] n']|]; [|discriminate].
  intros [= <-]. destruct (effect_due _ _); [|now repeat split].
  unfold fetchInsights. destruct (Nat.ltb _ _); now repeat split.
Qed.

Lemma allProcessedData_map_total settings records :
  (forall rec, processRawData [rec] settings <> []) ->
  exists data, allProcessedData_map settings records = Some data.
Proof.
  intros Hne. induction records as [|rec records [others IH]]; simpl.
  - now exists [].
  - rewrite IH. specialize (Hne rec).
    destruct (processRawData [rec] settings) as [|enriched rest];
      [now contradiction Hne|].
    simpl. now exists (enriched :: others).
Qed.

Lemma useMemo_total {D V : Type} same (cell : option (D * V)) deps factory n :
  (exists v n', factory n = Some (v, n')) ->
  exists m n', useMemo same cell deps factory n = Some (m, n').
Proof.
  intros (v & n' & E). unfold useMemo, bind, ret.
  destruct cell as [[d0 v0]|]; [destruct (same d0 deps)|]; rewrite ?E; eauto.
Qed.

(** A render throws only when [processRawData] returns an empty array for
    a one-record array. *)
Lemma render_total st :
  (forall rec s, processRawData [rec] s <> []) ->
  exists st', render st = Some st'.
Proof.
  intros Hne. unfold render, renderMemos.
  destruct (useMemo_total same2 (memo_allProcessedData (cells st))
              (settings (states st), uploadedRecords (states st))
              (allProcessedData (deref (settings (states st)))
                 (deref (uploadedRecords (states st))))
              (next_addr (world st))) as (m1 & n1 & E1).
  { unfold allProcessedData.
    destruct (allProcessedData_map_total (deref (settings (states st)))
                (deref (uploadedRecords (states st)))
                (fun rec => Hne rec _))
      as [data ->].
    unfold alloc. eauto. }
  unfold bind at 1. rewrite E1.
  destruct (useMemo_total same1 (memo_availableMonths (cells st)) (snd m1)
              (ret (availableMonths (deref (snd m1)))) n1) as (m2 & n2 & E2).
  { unfold ret. eauto. }
  unfold bind at 1. rewrite E2.
  destruct (useMemo_total same2 (memo_filteredData (cells st))
              (snd m1, selectedMonths (states st))
              (filteredData_memo (snd m1) (deref (selectedMonths (states st))))
              n2) as (m3 & n3 & E3).
  { unfold filteredData_memo, ret, alloc.
    destruct (Nat.eqb _ _); eauto. }
  unfold bind at 1. rewrite E3. unfold ret. eauto.
Qed.

Lemma render_from_scratch (st st' : AppState) :
  reachable st -> render st = Some st' ->
  exists data,
    rendered_allProcessedData st' = Some data /\
    map Some data
    = from_scratch (deref (settings (states st')))
        (deref (uploadedRecords (states st'))).
Proof.
  intros Hreach E.
  destruct (render_states st st' E) as (-> & -> & _).
  destruct (render_spec st st' (reachable_Inv st Hreach) E)
    as (v & f & n' & -> & Hv & _).
  exists (deref v). split.
  - destruct (effect_due _ _); [|reflexivity].
    unfold fetchInsights. now destruct (Nat.ltb _ _).
  - now apply allProcessedData_map_from_scratch.
Qed.

(** C5. Whatever has happened to the settings and to the record store,
    the enriched records of a render are [processRawData] under the
    current settings applied to every record of the current store: no
    enriched record stems from other settings or from an older store.
    Such a render exists whenever [processRawData] returns a record for
    every one-record array. *)
Theorem allProcessedData_from_scratch :
  (forall st st' : AppState,
      reachable st -> render st = Some st' ->
      exists data,
        rendered_allProcessedData st' = Some data /\
        map Some data
        = from_scratch (deref (settings (states st')))
            (deref (uploadedRecords (states st')))) /\
  ((forall rec s, processRawData [rec] s <> []) ->
   forall st : AppState, exists st', render st = Some st').
Proof.
  split; [exact render_from_scratch|].
  intros Hne st. now apply render_total.
Qed.

Lemma fetchInsights_cells F st : cells (fetchInsights F st) = cells st.
Proof. unfold fetchInsights. now destruct (Nat.ltb _ _). Qed.

Lemma effect_due_changed st f n' L :
  Inv st ->
  heap_ok n' L -> incl (refs_records st) L -> In f L ->
  rendered_filteredData st <> Some (deref f) ->
  effect_due (effect_fetchInsights (cells st)) f = true.
Proof.
  intros (_ & _ & _ & _ & _ & _ & Heff) HL Hincl Hf Hchanged.
  unfold effect_due, rendered_filteredData in *.
  destruct (effect_fetchInsights (cells st)) as [e|] eqn:Ee; [|reflexivity].
  destruct (Object_is e f) eqn:E; [|reflexivity].
  apply (Object_is_eq _ _ _ _ HL) in E; [|apply Hincl; in_refs Ee|assumption].
  subst e. destruct (memo_filteredData (cells st)) as [[d v0]|];
    [|discriminate].
  simpl in *. injection Heff as <-. now contradiction Hchanged.
Qed.

(** C7, amended. When a render yields a filtered list that differs from
    the one of the render before and is not empty, [getGeminiInsights]
    is called once more, on the new list, and the header shows the
    loading mark instead of an insight.  When the new filtered list is
    empty no call is made and the insight text stays what it was. *)
Theorem fetchInsights_on_change (st st' : AppState)
  (F' : list ProductionRecord) :
  reachable st -> render st = Some st' ->
  rendered_filteredData st' = Some F' ->
  rendered_filteredData st <> Some F' ->
  (F' <> [] ->
   insightCalls (world st') = insightCalls (world st) ++ [F'] /\
   isAiLoading (states st') = true /\
   displayedInsight st' = None) /\
  (F' = [] ->
   insightCalls (world st') = insightCalls (world st) /\
   aiInsights (states st') = aiInsights (states st)).
Proof.
  intros Hreach E HF' Hchanged.
  pose proof (reachable_Inv st Hreach) as HInv.
  destruct (render_spec st st' HInv E)
    as (v & f & n' & Est & _ & _ & _ & L & HL & Hincl & _ & HfL).
  assert (Ef : F' = deref f).
  { subst st'. unfold rendered_filteredData in HF'.
    destruct (effect_due _ _); [rewrite fetchInsights_cells in HF'|];
      simpl in HF'; congruence. }
  subst F'.
  rewrite (effect_due_changed st f n' L HInv HL Hincl HfL Hchanged) in Est.
  subst st'. unfold fetchInsights, displayedInsight.
  destruct (deref f) as [|r F]; simpl.
  - split; [intros C; now contradiction C|]. intros _. now split.
  - split; [|discriminate]. intros _. now repeat split.
Qed.

(** The month list of a render is made from all the enriched records of
    that render, whatever months are selected. *)
Lemma availableMonths_of_all (st st' : AppState) :
  reachable st -> render st = Some st' ->
  exists data,
    rendered_allProcessedData st' = Some data /\
    rendered_availableMonths st' = Some (availableMonths data).
Proof.
  intros Hreach E.
  destruct (render_spec st st' (reachable_Inv st Hreach) E)
    as (v & f & n' & -> & _).
  exists (deref v).
  unfold rendered_allProcessedData, rendered_availableMonths.
  destruct (effect_due _ _); [rewrite fetchInsights_cells|]; now split.
Qed.

(** C4. The month list of a render is made from all the enriched
    records of that render, not from the filtered ones; it holds exactly
    the month keys of those records, each once, in strictly descending
    string order, which for keys of four-digit years puts the later
    month first. *)
Theorem availableMonths_distinct_descending :
  (forall st st',
      reachable st -> render st = Some st' ->
      exists data,
        rendered_allProcessedData st' = Some data /\
        rendered_availableMonths st' = Some (availableMonths data)) /\
  (forall data,
      NoDup (availableMonths data) /\
      descending (availableMonths data) /\
      forall key,
        In key (availableMonths data) <->
        exists rec, In rec data /\ monthKey (datum rec) = Some key) /\
  (forall data i j y1 m1 y2 m2,
      i < j ->
      nth_error (availableMonths data) i = Some (calendarKey y1 m1) ->
      nth_error (availableMonths data) j = Some (calendarKey y2 m2) ->
      y1 < 10 ^ 4 -> y2 < 10 ^ 4 -> m1 < 10 ^ 2 -> m2 < 10 ^ 2 ->
      y2 < y1 \/ (y2 = y1 /\ m2 < m1)).
Proof.
  split; [exact availableMonths_of_all|].
  split; [|exact availableMonths_latest_first].
  intros data. split; [apply availableMonths_NoDup|].
  split; [apply availableMonths_descending|].
  intros key. apply availableMonths_In.
Qed.

(** C8, amended. [RoundingMode] has the two variants and no other; the
    order of [tempBuckets] and the sign of [tempTolerance] are not
    examined: whatever settings object is passed to [setSettings]
    becomes the current one, and the next render gives it to
    [processRawData] for every record of the store. *)
Theorem setSettings_unchecked (st st1 st2 : AppState)
  (newSettings : AppSettings) :
  reachable st ->
  react (Ev_setSettings newSettings) st = Some st1 ->
  render st1 = Some st2 ->
  (roundingMode newSettings = VARIANT_A \/
   roundingMode newSettings = VARIANT_B) /\
  deref (settings (states st2)) = newSettings /\
  exists data,
    rendered_allProcessedData st2 = Some data /\
    map Some data
    = from_scratch newSettings (deref (uploadedRecords (states st))).
Proof.
  intros Hreach E1 E2.
  split; [destruct (roundingMode newSettings); tauto|].
  assert (Hreach1 : reachable st1).
  { destruct Hreach as [evs Hevs].
    exists (evs ++ [Ev_setSettings newSettings]).
    revert Hevs. generalize initialState.
    induction evs as [|ev evs IH]; intros st0 Hevs; simpl in *.
    - injection Hevs as ->. now rewrite E1.
    - destruct (react ev st0); [now apply IH|discriminate]. }
  destruct (render_from_scratch st1 st2 Hreach1 E2)
    as (data & Hdata & Hfs).
  destruct (render_states st1 st2 E2) as (Hs & Hu & _).
  rewrite Hs, Hu in *. simpl in E1. injection E1 as <-. simpl in *.
  split; [reflexivity|]. now exists data.
Qed.

Lemma perform_all_store actions : forall st,
  store (perform_all actions st) = store st ++ flat_map written actions.
Proof.
  induction actions as [|a actions IH]; intros st; simpl.
  - now rewrite app_nil_r.
  - unfold perform_all in *. simpl. rewrite IH, perform_store.
    destruct a; simpl; rewrite ?app_nil_r, ?app_assoc; reflexivity.
Qed.

Lemma render_store st st' : render st = Some st' -> store st' = store st.
Proof.
  intros E. unfold store. now destruct (render_states st st' E) as (_ & -> & _).
Qed.

Lemma react_store ev st st' :
  react ev st = Some st' -> exists appended, store st' = store st ++ appended.
Proof.
  intros E. destruct ev; simpl in E.
  - exists []. rewrite app_nil_r. now apply render_store.
  - injection E as <-. exists []. now rewrite app_nil_r.
  - injection E as <-. exists []. now rewrite app_nil_r.
  - injection E as <-. exists []. now rewrite app_nil_r.
  - destruct (callback_handleFileUpload (cells st)); [|discriminate].
    injection E as <-. exists []. now rewrite app_nil_r.
  - destruct (nth_error _ _) as [[files closedOver]|]; [|discriminate].
    injection E as <-. rewrite perform_all_store. eexists. reflexivity.
  - destruct (existsb _ _); [|discriminate].
    injection E as <-. exists []. now rewrite app_nil_r.
  - destruct (pendingTimers (world st)); [discriminate|].
    injection E as <-. exists []. now rewrite app_nil_r.
Qed.

(** C6. A successful upload writes the store once: one functional
    update that appends the records of the whole batch, in batch order,
    to whatever the store holds when the update is applied.  No handler
    run writes the store more than once, and no event of the component
    removes, reorders or replaces stored records: the store before an
    event is a prefix of the store after it. *)
Theorem store_append_only :
  (forall settings files all,
      extractAll files settings [] = Fulfilled all ->
      all = flat_map (recordsOf settings) files /\
      filter is_store_write (handleFileUpload settings files)
      = [SetUploadedRecords all] /\
      forall st, store_after settings files st = store st ++ all) /\
  (forall settings files,
      List.length (filter is_store_write (handleFileUpload settings files))
      <= 1) /\
  (forall ev st st',
      react ev st = Some st' ->
      exists appended, store st' = store st ++ appended) /\
  (forall i files closedOver all st st',
      nth_error (pendingUploads (world st)) i = Some (files, closedOver) ->
      extractAll files closedOver [] = Fulfilled all ->
      react (Ev_uploadSettled i) st = Some st' ->
      store st' = store st ++ all).
Proof.
  split; [|split; [|split]].
  - intros settings files all E.
    split; [exact (proj2 (extractAll_inv _ _ _ _ E))|].
    rewrite (handleFileUpload_fulfilled _ _ _ E).
    split; [reflexivity|]. intros st. unfold store_after.
    fold (store (perform_all (handleFileUpload settings files) st)).
    rewrite perform_all_store, (handleFileUpload_fulfilled _ _ _ E).
    simpl. now rewrite app_nil_r.
  - intros settings files.
    unfold handleFileUpload, handleFileUpload_resume.
    destruct (extractAll files settings []); simpl; lia.
  - exact react_store.
  - intros i files closedOver all st st' Hp E Hr.
    simpl in Hr. rewrite Hp in Hr. injection Hr as <-.
    rewrite perform_all_store. unfold handleFileUpload_resume.
    rewrite E. simpl. now rewrite app_nil_r.
Qed.

End ComponentProperties.

Section MoreComponentProperties.
Context `{Imports}.

(** ** Reachable states *)

Lemma run_app evs1 : forall evs2 st,
  run (evs1 ++ evs2) st
  = match run evs1 st with
    | Some st' => run evs2 st'
    | None => None
    end.
Proof.
  induction evs1 as [|ev evs1 IH]; intros evs2 st; simpl; [reflexivity|].
  destruct (react ev st); [apply IH|reflexivity].
Qed.

Lemma reachable_step ev st st' :
  reachable st -> react ev st = Some st' -> reachable st'.
Proof.
  intros [evs E] Hstep. exists (evs ++ [ev]).
  rewrite run_app, E. simpl. now rewrite Hstep.
Qed.

Lemma reachable_invariant (P : AppState -> Prop) :
  P initialState ->
  (forall ev st st', reachable st -> P st -> react ev st = Some st' -> P st') ->
  forall st, reachable st -> P st.
Proof.
  intros Hinit Hstep st [evs E].
  assert (Hgen : forall evs st0 st1,
             reachable st0 -> P st0 -> run evs st0 = Some st1 -> P st1).
  { clear st evs E. induction evs as [|ev evs IH]; intros st0 st1 Hr Hp E;
      simpl in E.
    - now injection E as <-.
    - destruct (react ev st0) as [st'|] eqn:E'; [|discriminate].
      apply (IH st' st1); [now apply reachable_step with ev st0| |assumption].
      now apply Hstep with ev st0. }
  apply (Hgen evs initialState st); [now exists []|assumption|assumption].
Qed.

(** What a render leaves alone, and the one thing its effect may do. *)
Lemma render_frame st st' :
  render st = Some st' ->
  activeTab (states st') = activeTab (states st) /\
  aiInsights (states st') = aiInsights (states st) /\
  isParsingPdf (states st') = isParsingPdf (states st) /\
  uploadStats (states st') = uploadStats (states st) /\
  pendingUploads (world st') = pendingUploads (world st) /\
  pendingTimers (world st') = pendingTimers (world st) /\
  consoleErrors (world st') = consoleErrors (world st) /\
  alerts (world st') = alerts (world st) /\
  ((isAiLoading (states st') = isAiLoading (states st) /\
    insightCalls (world st') = insightCalls (world st) /\
    pendingInsights (world st') = pendingInsights (world st)) \/
   (exists F, F <> [] /\
      rendered_filteredData st' = Some F /\
      isAiLoading (states st') = true /\
      insightCalls (world st') = insightCalls (world st) ++ [F] /\
      pendingInsights (world st')
      = pendingInsights (world st) ++ [List.length (insightCalls (world st))])).
Proof.
  unfold render.
  destruct (renderMemos _ _ _) as [[[[m1 m2] m3] n']|]; [|discriminate].
  intros [= <-]. destruct (effect_due _ _).
  - unfold fetchInsights. destruct (deref (snd m3)) as [|r F] eqn:EF; simpl.
    + repeat split; try reflexivity. left. now repeat split.
    + repeat split; try reflexivity. right. exists (r :: F).
      unfold rendered_filteredData. simpl. rewrite EF.
      repeat split; try reflexivity. discriminate.
  - simpl. repeat split; try reflexivity. left. now repeat split.
Qed.

(** ** More on the upload handler *)

Lemma extractAll_first_failure settings before bad after error : forall acc,
  (forall file, In file before -> succeeds settings file) ->
  parseProductionDataWithAi bad settings = Rejected error ->
  extractAll (before ++ bad :: after) settings acc = Rejected error.
Proof.
  induction before as [|file before IH]; intros acc Hall Hbad; simpl.
  - now rewrite Hbad.
  - destruct (Hall file (or_introl eq_refl)) as [records E]. rewrite E.
    apply IH; [|assumption]. intros f Hf. apply Hall. now right.
Qed.

(** X10. The first document whose extraction fails decides the outcome:
    its error is the one logged and shown, once, whatever the documents
    after it would have yielded. *)
Theorem handleFileUpload_first_failure (settings : AppSettings)
  (before after : list File) (bad : File) (error : Thrown) :
  (forall file, In file before -> succeeds settings file) ->
  parseProductionDataWithAi bad settings = Rejected error ->
  handleFileUpload settings (before ++ bad :: after)
  = [SetIsParsingPdf true; ConsoleError "Upload failed" error;
     Alert (alertMessage error); SetIsParsingPdf false].
Proof.
  intros Hall Hbad. apply handleFileUpload_rejected.
  now apply extractAll_first_failure.
Qed.

Lemma flat_map_nil {A B : Type} (f : A -> list B) (l : list A) :
  (forall x, In x l -> f x = []) -> flat_map f l = [].
Proof.
  induction l as [|x l IH]; intros Hall; simpl; [reflexivity|].
  rewrite (Hall x (or_introl eq_refl)), IH; [reflexivity|].
  intros y Hy. apply Hall. now right.
Qed.

(** X11. After a successful upload the banner reports the number of
    documents and a record count that is exactly the number of records
    the store has grown by, and one timer is set to clear it; after a
    failed upload the banner and the timers are as before. *)
Theorem uploadStats_counts (settings : AppSettings) (files : list File)
  (st : AppState) :
  ((forall file, In file files -> succeeds settings file) ->
   exists count,
     uploadStats (states (perform_all (handleFileUpload settings files) st))
     = Some (List.length files, count) /\
     List.length (store_after settings files st)
     = List.length (store st) + count /\
     pendingTimers (world (perform_all (handleFileUpload settings files) st))
     = S (pendingTimers (world st))) /\
  ((exists file, In file files /\ fails settings file) ->
   uploadStats (states (perform_all (handleFileUpload settings files) st))
   = uploadStats (states st) /\
   pendingTimers (world (perform_all (handleFileUpload settings files) st))
   = pendingTimers (world st)).
Proof.
  split.
  - intros Hall.
    exists (List.length (flat_map (recordsOf settings) files)).
    unfold store_after, store.
    rewrite (handleFileUpload_fulfilled _ _ _
               (extractAll_fulfilled settings files [] Hall)).
    simpl. rewrite length_app. now repeat split.
  - intros Hbad.
    destruct (extractAll_rejected settings files [] Hbad) as [error E].
    rewrite (handleFileUpload_rejected _ _ _ E). now split.
Qed.

(** X12. An upload whose documents all yield no records, an empty file
    list among them, counts as a success: the banner reports 0 records,
    nothing is alerted and the store holds the records it held, in a new
    array. *)
Theorem handleFileUpload_no_records (settings : AppSettings)
  (files : list File) (st : AppState) :
  (forall file, In file files ->
                parseProductionDataWithAi file settings = Fulfilled []) ->
  store_after settings files st = store st /\
  uploadStats (states (perform_all (handleFileUpload settings files) st))
  = Some (List.length files, 0) /\
  alerts (world (perform_all (handleFileUpload settings files) st))
  = alerts (world st) /\
  addr (uploadedRecords
          (states (perform_all (handleFileUpload settings files) st)))
  = next_addr (world st).
Proof.
  intros Hnone.
  assert (Hall : forall file, In file files -> succeeds settings file)
    by (intros file Hf; exists []; now apply Hnone).
  assert (E : flat_map (recordsOf settings) files = []).
  { apply flat_map_nil. intros file Hf. unfold recordsOf.
    now rewrite (Hnone file Hf). }
  pose proof (extractAll_fulfilled settings files [] Hall) as Ex.
  rewrite E in Ex. simpl in Ex.
  unfold store_after, store.
  rewrite (handleFileUpload_fulfilled _ _ _ Ex). simpl.
  rewrite app_nil_r. now repeat split.
Qed.

(** ** Flags and what is outstanding *)

Lemma resume_flags settings files st :
  isParsingPdf (states (perform_all (handleFileUpload_resume settings files) st))
  = false /\
  ((uploadStats
      (states (perform_all (handleFileUpload_resume settings files) st))
    = uploadStats (states st) /\
    pendingTimers
      (world (perform_all (handleFileUpload_resume settings files) st))
    = pendingTimers (world st)) \/
   pendingTimers
     (world (perform_all (handleFileUpload_resume settings files) st))
   = S (pendingTimers (world st))) /\
  isAiLoading (states (perform_all (handleFileUpload_resume settings files) st))
  = isAiLoading (states st) /\
  insightCalls (world (perform_all (handleFileUpload_resume settings files) st))
  = insightCalls (world st) /\
  pendingInsights
    (world (perform_all (handleFileUpload_resume settings files) st))
  = pendingInsights (world st) /\
  pendingUploads
    (world (perform_all (handleFileUpload_resume settings files) st))
  = pendingUploads (world st).
Proof.
  unfold handleFileUpload_resume.
  destruct (extractAll files settings []); simpl; repeat split; tauto.
Qed.

(** X13. The parsing flag is never left on: in every reachable state in
    which no upload is outstanding, [isParsingPdf] is false. *)
Theorem isParsingPdf_cleared (st : AppState) :
  reachable st ->
  pendingUploads (world st) = [] -> isParsingPdf (states st) = false.
Proof.
  intros Hreach. revert st Hreach.
  apply (reachable_invariant
           (fun st => pendingUploads (world st) = [] ->
                      isParsingPdf (states st) = false)).
  - reflexivity.
  - intros ev st st' _ IH E. destruct ev; simpl in E.
    + destruct (render_frame st st' E) as (_ & _ & -> & _ & -> & _).
      assumption.
    + injection E as <-. exact IH.
    + injection E as <-. exact IH.
    + injection E as <-. exact IH.
    + destruct (callback_handleFileUpload (cells st)); [|discriminate].
      injection E as <-. simpl. intros Hnil.
      now destruct (pendingUploads (world st)).
    + destruct (nth_error _ _) as [[files closedOver]|]; [|discriminate].
      injection E as <-. intros _. apply resume_flags.
    + destruct (existsb _ _); [|discriminate]. injection E as <-. exact IH.
    + destruct (pendingTimers (world st)); [discriminate|].
      injection E as <-. exact IH.
Qed.

(** X14. A success banner is never left standing: in every reachable
    state that shows one, a timer that will clear it is pending. *)
Theorem uploadStats_has_timer (st : AppState) :
  reachable st ->
  uploadStats (states st) <> None -> 0 < pendingTimers (world st).
Proof.
  intros Hreach. revert st Hreach.
  apply (reachable_invariant
           (fun st => uploadStats (states st) <> None ->
                      0 < pendingTimers (world st))).
  - intros Hne. now contradiction Hne.
  - intros ev st st' _ IH E. destruct ev; simpl in E.
    + destruct (render_frame st st' E) as (_ & _ & _ & -> & _ & -> & _).
      assumption.
    + injection E as <-. exact IH.
    + injection E as <-. exact IH.
    + injection E as <-. exact IH.
    + destruct (callback_handleFileUpload (cells st)); [|discriminate].
      injection E as <-. exact IH.
    + destruct (nth_error _ _) as [[files closedOver]|]; [|discriminate].
      injection E as <-.
      destruct (resume_flags closedOver files
                  (with_world
                     (fun w => set_pendingUploads
                                 (remove_nth i (pendingUploads w)) w) st))
        as (_ & [[-> ->]| ->] & _); [exact IH|lia].
    + destruct (existsb _ _); [|discriminate]. injection E as <-. exact IH.
    + destruct (pendingTimers (world st)); [discriminate|].
      injection E as <-. intros Hne. now contradiction Hne.
Qed.

(** X15. [getGeminiInsights] is never called on an empty list. *)
Theorem insightCalls_nonempty (st : AppState) :
  reachable st -> Forall (fun F => F <> []) (insightCalls (world st)).
Proof.
  revert st.
  apply (reachable_invariant
           (fun st => Forall (fun F => F <> []) (insightCalls (world st)))).
  - constructor.
  - intros ev st st' _ IH E. destruct ev; simpl in E.
    + destruct (render_frame st st' E)
        as (_ & _ & _ & _ & _ & _ & _ & _ & [(_ & -> & _)|(F & HF & _ & _ & -> & _)]);
        [assumption|].
      apply Forall_app. split; [assumption|now constructor].
    + injection E as <-. exact IH.
    + injection E as <-. exact IH.
    + injection E as <-. exact IH.
    + destruct (callback_handleFileUpload (cells st)); [|discriminate].
      injection E as <-. exact IH.
    + destruct (nth_error _ _) as [[files closedOver]|]; [|discriminate].
      injection E as <-.
      destruct (resume_flags closedOver files
                  (with_world
                     (fun w => set_pendingUploads
                                 (remove_nth i (pendingUploads w)) w) st))
        as (_ & _ & _ & -> & _). exact IH.
    + destruct (existsb _ _); [|discriminate]. injection E as <-. exact IH.
    + destruct (pendingTimers (world st)); [discriminate|].
      injection E as <-. exact IH.
Qed.

Lemma insights_ok_reachable (st : AppState) : reachable st -> insights_ok st.
Proof.
  revert st. apply (reachable_invariant insights_ok).
  - split; [constructor|discriminate].
  - intros ev st st' _ [IHp IHl] E. unfold insights_ok.
    destruct ev; simpl in E.
    + destruct (render_frame st st' E)
        as (_ & _ & _ & _ & _ & _ & _ & _ &
            [(-> & -> & ->)|(F & _ & _ & _ & -> & ->)]);
        [now split|].
      split.
      * apply Forall_app. split.
        -- rewrite Forall_forall in *. intros c Hc.
           specialize (IHp c Hc). rewrite length_app. simpl. lia.
        -- constructor; [|constructor]. rewrite length_app. simpl. lia.
      * intros _. now destruct (pendingInsights (world st)).
    + injection E as <-. now split.
    + injection E as <-. now split.
    + injection E as <-. now split.
    + destruct (callback_handleFileUpload (cells st)); [|discriminate].
      injection E as <-. now split.
    + destruct (nth_error _ _) as [[files closedOver]|]; [|discriminate].
      injection E as <-.
      destruct (resume_flags closedOver files
                  (with_world
                     (fun w => set_pendingUploads
                                 (remove_nth i (pendingUploads w)) w) st))
        as (_ & _ & -> & -> & -> & _). now split.
    + destruct (existsb _ _); [|discriminate]. injection E as <-. simpl.
      split; [|discriminate].
      apply Forall_forall. intros c Hc. apply filter_In in Hc as [Hc _].
      rewrite Forall_forall in IHp. now apply IHp.
    + destruct (pendingTimers (world st)); [discriminate|].
      injection E as <-. now split.
Qed.

(** X16. Whenever the loading flag of the insight is on, a logged call
    of [getGeminiInsights] has not been fulfilled. *)
Theorem isAiLoading_has_call (st : AppState) :
  reachable st -> isAiLoading (states st) = true ->
  exists call F,
    In call (pendingInsights (world st)) /\
    nth_error (insightCalls (world st)) call = Some F.
Proof.
  intros Hreach Hload.
  destruct (insights_ok_reachable st Hreach) as [Hp Hl].
  destruct (pendingInsights (world st)) as [|call rest] eqn:Ep;
    [now contradiction (Hl Hload)|].
  inversion Hp as [|? ? Hcall _]; subst.
  destruct (nth_error (insightCalls (world st)) call) as [F|] eqn:En.
  - exists call, F. split; [now left|exact En].
  - apply nth_error_None in En. lia.
Qed.

(** ** Memo reuse *)

Lemma Object_is_refl {A : Type} (x : Ref A) : Object_is x x = true.
Proof. apply Nat.eqb_refl. Qed.

Lemma canonical_render st : canonical st -> render st = Some st.
Proof.
  intros (v & f & Ec). destruct st as [s c w]. simpl in Ec. subst c.
  unfold render, renderMemos, bind, useMemo, ret, same1, same2. simpl.
  unfold useCallback_handleFileUpload, effect_due.
  repeat (progress (rewrite ?Object_is_refl; simpl)). now destruct w.
Qed.

Lemma render_canonical st st' : Inv st -> render st = Some st' -> canonical st'.
Proof.
  intros HInv E.
  destruct (render_states st st' E) as (Hs & Hu & Hm).
  destruct (render_spec st st' HInv E) as (v & f & n' & -> & _).
  exists v, f.
  assert (Ec : cells (if effect_due (effect_fetchInsights (cells st)) f
                      then fetchInsights (deref f) (committed st v f n')
                      else committed st v f n')
               = cells (committed st v f n'))
    by (destruct (effect_due _ _); [apply fetchInsights_cells|reflexivity]).
  rewrite Ec, Hs, Hu, Hm. reflexivity.
Qed.

Lemma keeps_dependencies_canonical ev st st' :
  keeps_dependencies ev = true -> react ev st = Some st' ->
  canonical st -> canonical st'.
Proof.
  intros Hev E (v & f & Ec). exists v, f.
  destruct ev; try discriminate; simpl in E.
  - injection E as <-. exact Ec.
  - destruct (callback_handleFileUpload (cells st)); [|discriminate].
    injection E as <-. exact Ec.
  - destruct (existsb _ _); [|discriminate]. injection E as <-. exact Ec.
  - destruct (pendingTimers (world st)); [discriminate|].
    injection E as <-. exact Ec.
Qed.

(** X17. Rendering again without any state change changes nothing: no
    memo is recomputed, nothing is allocated and [getGeminiInsights] is
    not called; the effect's own [setIsAiLoading] does not set it off
    again. *)
Theorem render_idempotent (st st' : AppState) :
  reachable st -> render st = Some st' -> render st' = Some st'.
Proof.
  intros Hreach E. apply canonical_render.
  now apply render_canonical with st; [apply reachable_Inv|].
Qed.

(** X18. After a tab switch, the start of an upload, the arrival of an
    insight or a timer, the next render recomputes no memo and makes no
    call of [getGeminiInsights]: it leaves the state as it is. *)
Theorem render_after_unrelated (st st1 st2 : AppState) (ev : Event) :
  reachable st -> render st = Some st1 ->
  keeps_dependencies ev = true -> react ev st1 = Some st2 ->
  render st2 = Some st2.
Proof.
  intros Hreach E Hev E2. apply canonical_render.
  apply (keeps_dependencies_canonical ev st1 st2 Hev E2).
  now apply render_canonical with st; [apply reachable_Inv|].
Qed.

Lemma render_keeps_memos st st' v ms :
  memo_allProcessedData (cells st)
  = Some ((settings (states st), uploadedRecords (states st)), v) ->
  memo_availableMonths (cells st) = Some (v, ms) ->
  render st = Some st' ->
  memo_allProcessedData (cells st') = memo_allProcessedData (cells st) /\
  memo_availableMonths (cells st') = memo_availableMonths (cells st).
Proof.
  intros E1 E2. unfold render, renderMemos, bind, useMemo, ret.
  rewrite E1, E2. unfold same1, same2. simpl.
  repeat (progress (rewrite ?Object_is_refl; simpl)).
  assert (Hdone : forall m3 next st0,
             Some (if effect_due (effect_fetchInsights (cells st)) (snd m3)
                   then fetchInsights (deref (snd m3))
                          (mkAppState (states st)
                             (mkCells
                                (Some (settings (states st),
                                       uploadedRecords (states st), v))
                                (Some (v, ms)) (Some m3) (Some (snd m3))
                                (useCallback_handleFileUpload
                                   (callback_handleFileUpload (cells st))
                                   (settings (states st))))
                             (set_next_addr next (world st)))
                   else mkAppState (states st)
                          (mkCells
                             (Some (settings (states st),
                                    uploadedRecords (states st), v))
                             (Some (v, ms)) (Some m3) (Some (snd m3))
                             (useCallback_handleFileUpload
                                (callback_handleFileUpload (cells st))
                                (settings (states st))))
                          (set_next_addr next (world st)))
             = Some st0 ->
             memo_allProcessedData (cells st0)
             = Some (settings (states st), uploadedRecords (states st), v) /\
             memo_availableMonths (cells st0) = Some (v, ms)).
  { intros m3 next st0 [= <-].
    destruct (effect_due _ _); rewrite ?fetchInsights_cells; now split. }
  destruct (memo_filteredData (cells st)) as [[d3 v3]|].
  - destruct (Object_is (fst d3) v && Object_is (snd d3) _).
    + apply Hdone.
    + unfold bind. destruct (filteredData_memo _ _ _) as [[f n']|];
        [apply Hdone|discriminate].
  - unfold bind. destruct (filteredData_memo _ _ _) as [[f n']|];
      [apply Hdone|discriminate].
Qed.

(** X19. Changing the month selection does not run [processRawData]
    again: the next render keeps the enriched records and the month list
    of the render before, the same objects, and filters those records by
    the new selection. *)
Theorem selection_keeps_memos (st st1 st2 st3 : AppState)
  (months : list string) :
  reachable st -> render st = Some st1 ->
  react (Ev_setSelectedMonths months) st1 = Some st2 ->
  render st2 = Some st3 ->
  memo_allProcessedData (cells st3) = memo_allProcessedData (cells st1) /\
  memo_availableMonths (cells st3) = memo_availableMonths (cells st1) /\
  exists data,
    rendered_allProcessedData st1 = Some data /\
    rendered_filteredData st3 = Some (filteredData data months).
Proof.
  intros Hreach E1 E2 E3.
  pose proof (reachable_Inv st Hreach) as HInv.
  destruct (render_canonical st st1 HInv E1) as (v & f & Ec).
  assert (Hreach1 : reachable st1)
    by exact (reachable_step Ev_render st st1 Hreach E1).
  assert (Hreach2 : reachable st2)
    by exact (reachable_step _ st1 st2 Hreach1 E2).
  assert (Hst2 : cells st2 = cells st1 /\
                 settings (states st2) = settings (states st1) /\
                 uploadedRecords (states st2) = uploadedRecords (states st1) /\
                 deref (selectedMonths (states st2)) = months)
    by (simpl in E2; injection E2 as <-; now repeat split).
  destruct Hst2 as (Hc & Hs & Hu & Hm).
  assert (M1 : memo_allProcessedData (cells st2)
               = Some ((settings (states st2),
                        uploadedRecords (states st2)), v))
    by (rewrite Hc, Hs, Hu, Ec; reflexivity).
  assert (M2 : memo_availableMonths (cells st2)
               = Some (v, availableMonths (deref v)))
    by (rewrite Hc, Ec; reflexivity).
  destruct (render_keeps_memos st2 st3 v _ M1 M2 E3) as (K1 & K2).
  rewrite Hc in K1, K2. split; [assumption|]. split; [assumption|].
  exists (deref v). unfold rendered_allProcessedData. rewrite Ec. simpl.
  split; [reflexivity|].
  destruct (render_spec st2 st3 (reachable_Inv _ Hreach2) E3)
    as (v' & f' & n' & Est & _ & Hf' & _).
  assert (Ec3 : cells st3 = cells (committed st2 v' f' n'))
    by (rewrite Est; destruct (effect_due _ _);
        [apply fetchInsights_cells|reflexivity]).
  assert (Ev : v' = v).
  { rewrite Ec3, Ec in K1. simpl in K1. congruence. }
  subst v'. rewrite Hm in Hf'. rewrite <- Hf'.
  unfold rendered_filteredData. now rewrite Ec3.
Qed.

(** X20. The handler that a render hands out closes over the settings
    of that render: an upload started then is extracted under those
    settings, also when the settings are replaced before it settles. *)
Theorem upload_uses_settings_of_start (st st1 st2 st3 st4 : AppState)
  (files : list File) (newSettings : AppSettings) :
  reachable st -> render st = Some st1 ->
  react (Ev_upload files) st1 = Some st2 ->
  react (Ev_setSettings newSettings) st2 = Some st3 ->
  react (Ev_uploadSettled (List.length (pendingUploads (world st1)))) st3
  = Some st4 ->
  store st4
  = store st1
    ++ flat_map written
         (handleFileUpload_resume (deref (settings (states st1))) files).
Proof.
  intros Hreach E1 E2 E3 E4.
  destruct (render_canonical st st1 (reachable_Inv st Hreach) E1)
    as (v & f & Ec).
  simpl in E2. rewrite Ec in E2. simpl in E2. injection E2 as <-.
  simpl in E3. injection E3 as <-.
  simpl in E4. rewrite nth_error_app2 in E4 by lia.
  rewrite Nat.sub_diag in E4. simpl in E4. injection E4 as <-.
  now rewrite perform_all_store.
Qed.

(** ** The rendered tree *)

Lemma allProcessedData_map_length settings records : forall data,
  allProcessedData_map settings records = Some data ->
  List.length data = List.length records.
Proof.
  induction records as [|rec records IH]; intros data; simpl.
  - now intros [= <-].
  - destruct (JS.index0 _); [|discriminate].
    destruct (allProcessedData_map settings records) as [others|];
      [|discriminate].
    intros [= <-]. simpl. now rewrite (IH others).
Qed.

(** The tree after a render, in terms of the state. *)
Lemma screen_after_render st st' :
  reachable st -> render st = Some st' ->
  exists all,
    allProcessedData_map (deref (settings (states st'))) (store st')
    = Some all /\
    screen (states st') (cells st')
    = Some (mkScreen (isParsingPdf (states st'))
              (view_headerLine
                 (filteredData all (deref (selectedMonths (states st')))) all)
              (view_successBanner (uploadStats (states st')))
              (view_headerBadge (isAiLoading (states st'))
                 (isParsingPdf (states st')) (aiInsights (states st')))
              (view_body all
                 (filteredData all (deref (selectedMonths (states st'))))
                 (availableMonths all)
                 (deref (selectedMonths (states st')))
                 (isParsingPdf (states st')) (activeTab (states st')))).
Proof.
  intros Hreach E.
  destruct (render_states st st' E) as (Hs & Hu & Hm).
  destruct (render_spec st st' (reachable_Inv st Hreach) E)
    as (v & f & n' & Est & Hv & Hf & _).
  exists (deref v).
  unfold store. rewrite Hs, Hu, Hm. split; [assumption|].
  assert (Ec : cells st' = cells (committed st v f n'))
    by (rewrite Est; destruct (effect_due _ _);
        [apply fetchInsights_cells|reflexivity]).
  unfold screen. rewrite Ec. simpl. now rewrite Hf, Hm.
Qed.

Lemma view_tabs_spec activeTab data :
  List.length (view_tabs activeTab data) <= 1 /\
  forall v, In v (view_tabs activeTab data) -> tabData v = data.
Proof.
  unfold view_tabs.
  destruct (String.eqb activeTab "dashboard") eqn:E1.
  - apply String.eqb_eq in E1. subst. simpl. split; [lia|].
    intros v [<-|[]]. reflexivity.
  - destruct (String.eqb activeTab "data") eqn:E2.
    + apply String.eqb_eq in E2. subst. simpl. split; [lia|].
      intros v [<-|[]]. reflexivity.
    + destruct (String.eqb activeTab "validation"); simpl; split;
        try lia; intros v Hv; intuition; now subst.
Qed.

(** X21. A tab view is shown only with data: after a render at most one
    of Dashboard, DataTable and Validation is in the tree, and it is
    handed the filtered list of that render, which is not empty. *)
Theorem views_get_filtered_data (st st' : AppState) (scr : Screen)
  (ms sel : list string) (views : list TabView) :
  reachable st -> render st = Some st' ->
  screen (states st') (cells st') = Some scr ->
  body scr = Loaded ms sel (Tabs views) ->
  List.length views <= 1 /\
  forall v, In v views ->
    tabData v <> [] /\ rendered_filteredData st' = Some (tabData v).
Proof.
  intros Hreach E Hscr Hbody.
  destruct (render_spec st st' (reachable_Inv st Hreach) E)
    as (v0 & f & n' & Est & _).
  assert (Ec : cells st' = cells (committed st v0 f n'))
    by (rewrite Est; destruct (effect_due _ _);
        [apply fetchInsights_cells|reflexivity]).
  unfold screen, rendered_filteredData in *. rewrite Ec in *. simpl in *.
  injection Hscr as <-. simpl in Hbody. unfold view_body in Hbody.
  destruct (_ && _); [discriminate|].
  destruct (isParsingPdf (states st')); [discriminate|].
  destruct (Nat.eqb (List.length (deref f)) 0) eqn:El; [discriminate|].
  injection Hbody as _ _ <-.
  destruct (view_tabs_spec (activeTab (states st')) (deref f)) as [Hlen Hdata].
  split; [assumption|]. intros v Hv. rewrite (Hdata v Hv).
  split; [|reflexivity]. intros Hnil. rewrite Hnil in El. discriminate.
Qed.

(** X22. With no month selected the message that the period has no data
    is never shown. *)
Theorem no_selection_no_empty_period (st st' : AppState) (scr : Screen) :
  reachable st -> render st = Some st' ->
  deref (selectedMonths (states st')) = [] ->
  screen (states st') (cells st') = Some scr ->
  forall ms sel, body scr <> Loaded ms sel NoDataForPeriod.
Proof.
  intros Hreach E Hsel Hscr ms sel Hbody.
  destruct (screen_after_render st st' Hreach E) as (all & _ & Hs).
  rewrite Hs in Hscr. injection Hscr as <-. simpl in Hbody.
  rewrite Hsel in Hbody. rewrite filteredData_empty in Hbody.
  unfold view_body in Hbody.
  destruct (isParsingPdf (states st')); simpl in Hbody.
  - rewrite andb_false_r in Hbody. discriminate.
  - rewrite andb_true_r in Hbody.
    destruct (Nat.eqb (List.length all) 0); discriminate.
Qed.

(** X23. After a render the drop zone is shown exactly when the record
    store is empty and nothing is being parsed; a header line with
    counts shows at least one entry, at most the total, and the total is
    the size of the record store. *)
Theorem drop_zone_and_counts (st st' : AppState) (scr : Screen) :
  reachable st -> render st = Some st' ->
  screen (states st') (cells st') = Some scr ->
  (body scr = DropZone <->
   store st' = [] /\ isParsingPdf (states st') = false) /\
  (forall shown total,
      headerLine scr = HeaderEntries shown total ->
      0 < shown <= total /\ total = List.length (store st')).
Proof.
  intros Hreach E Hscr.
  destruct (screen_after_render st st' Hreach E) as (all & Hall & Hs).
  rewrite Hs in Hscr. injection Hscr as <-. simpl.
  pose proof (allProcessedData_map_length _ _ _ Hall) as Hlen.
  split.
  - unfold view_body. rewrite Hlen.
    destruct (store st') as [|r rest]; destruct (isParsingPdf (states st'));
      simpl; split; try discriminate; try tauto;
      try (intros [? ?]; discriminate);
      destruct (Nat.eqb (List.length (filteredData all _)) 0); discriminate.
  - intros shown total. unfold view_headerLine.
    destruct (Nat.ltb 0 _) eqn:El; [|discriminate].
    intros [= <- <-]. apply Nat.ltb_lt in El.
    split; [|assumption]. split; [assumption|].
    unfold filteredData. destruct (Nat.eqb _ 0); [lia|].
    apply filter_length_le.
Qed.

End MoreComponentProperties.

(** ** The properties on the sample plant *)

Lemma store_append_only_witness :
  @store sample (after uploaded_1_3) = doc1 ++ doc3 /\
  @store_after sample initialSettings ([1; 3] : list nat) (after uploaded_1_3)
  = (doc1 ++ doc3) ++ (doc1 ++ doc3).
Proof.
  destruct (@store_append_only sample) as (Hone & _ & _ & Hsettle).
  split.
  - apply (Hsettle 0 ([1; 3] : list nat) initialSettings (doc1 ++ doc3)
             (after [Ev_render; upload [1; 3]; Ev_render])
             (after uploaded_1_3)); vm_compute; reflexivity.
  - refine (proj2 (proj2 (Hone initialSettings ([1; 3] : list nat)
                            (doc1 ++ doc3) _)) _).
    vm_compute. reflexivity.
Defined.

Lemma after_reachable evs st :
  run evs initialState = Some st -> @reachable sample (after evs).
Proof.
  intros E. exists evs. unfold after. now rewrite E.
Qed.

(** Two uploads in flight that settle in the reverse order: each batch
    is appended whole, the later-settled one after the other. *)
Example concurrent_uploads :
  @store sample
    (after [Ev_render; upload [1]; upload [3]; Ev_uploadSettled 1;
            Ev_render; Ev_uploadSettled 0])
  = doc3 ++ doc1.
Proof. vm_compute. reflexivity. Qed.

(** A batch of three documents whose second cannot be read, on a store
    that holds an earlier upload. *)
Lemma handleFileUpload_failure_keeps_store_witness :
  @store_after sample initialSettings ([1; 2; 3] : list nat)
    (after uploaded_1_3)
  = doc1 ++ doc3.
Proof.
  refine (proj2 (proj2 (@handleFileUpload_failure_keeps_store sample
                          initialSettings ([1; 2; 3] : list nat)
                          (after uploaded_1_3) _))).
  exists 2. split; [simpl; tauto|].
  exists (ThrownError "Seite nicht lesbar"). reflexivity.
Defined.

Lemma handleFileUpload_batch_outcome_witness :
  (exists error,
      @store_after sample initialSettings ([1; 2; 3] : list nat) initialState
      = [] /\
      alerts (world (perform_all
                       (@handleFileUpload sample initialSettings [1; 2; 3])
                       (@initialState sample)))
      = [] ++ [alertMessage error] /\
      consoleErrors
        (world (perform_all
                  (@handleFileUpload sample initialSettings [1; 2; 3])
                  (@initialState sample)))
      = [] ++ [("Upload failed", error)]) /\
  @store_after sample initialSettings ([1; 3] : list nat) initialState
  = [] ++ doc1 ++ doc3.
Proof.
  split.
  - apply (proj1 (@handleFileUpload_batch_outcome sample initialSettings
                    ([1; 2; 3] : list nat) initialState)).
    exists 2. split; [simpl; tauto|].
    exists (ThrownError "Seite nicht lesbar"). reflexivity.
  - refine (proj1 (proj2 (@handleFileUpload_batch_outcome sample
                            initialSettings ([1; 3] : list nat)
                            initialState) _)).
    intros file [<-|[<-|[]]].
    + exists doc1. reflexivity.
    + exists doc3. reflexivity.
Defined.

(** C1 as stated fails: document 2 of the batch cannot be read, documents
    1 and 3 can, and after the handler has run the store holds none of
    their records. *)
Lemma batch_partial_failure_counterexample :
  ~ (forall (settings : AppSettings) (files : list (@File sample))
            (st : @AppState sample) (bad : @File sample),
        In bad files -> @fails sample settings bad ->
        (forall file, In file files -> file <> bad ->
                      @succeeds sample settings file) ->
        forall file rec,
          In file files -> file <> bad ->
          In rec (@recordsOf sample settings file) ->
          In rec (store_after settings files st)).
Proof.
  intros Hall.
  apply (Hall initialSettings ([1; 2; 3] : list nat) initialState 2
           ltac:(simpl; tauto)
           ltac:(now exists (ThrownError "Seite nicht lesbar"))
           ltac:(intros file [<-|[<-|[<-|[]]]] Hne;
                 [now exists doc1|now contradiction Hne|now exists doc3])
           1 (rawRecord "1a" "05.03.24")
           ltac:(simpl; tauto) ltac:(discriminate) ltac:(simpl; tauto)).
Qed.

Lemma allProcessedData_from_scratch_witness :
  exists data,
    rendered_allProcessedData (after (settings_changed ++ [Ev_render]))
    = Some data /\
    map Some data
    = @from_scratch sample invalidSettings (doc1 ++ doc3).
Proof.
  apply (proj1 (@allProcessedData_from_scratch sample)
           (after settings_changed)
           (after (settings_changed ++ [Ev_render]))).
  - eapply after_reachable. vm_compute. reflexivity.
  - vm_compute. reflexivity.
Defined.

Lemma availableMonths_distinct_descending_witness :
  exists data,
    rendered_allProcessedData (after (uploaded_1_3 ++ [Ev_render]))
    = Some data /\
    rendered_availableMonths (after (uploaded_1_3 ++ [Ev_render]))
    = Some (availableMonths data).
Proof.
  apply (proj1 (@availableMonths_distinct_descending sample)
           (after uploaded_1_3)).
  - eapply after_reachable. vm_compute. reflexivity.
  - vm_compute. reflexivity.
Defined.

Example rendered_availableMonths_example :
  rendered_availableMonths
    (after (uploaded_1_3
            ++ [Ev_render; Ev_setSelectedMonths ["2024-03"]; Ev_render]))
  = Some ["2024-04"; "2024-03"; "2023-11"].
Proof. vm_compute. reflexivity. Qed.

Lemma fetchInsights_on_change_witness :
  insightCalls
    (world (after (insight_shown
                   ++ [Ev_setSelectedMonths ["2024-03"]; Ev_render])))
  = [map (sample_enrich initialSettings) (doc1 ++ doc3)]
    ++ [[sample_enrich initialSettings (rawRecord "1a" "05.03.24")]].
Proof.
  assert (Hreach : @reachable sample
            (after (insight_shown ++ [Ev_setSelectedMonths ["2024-03"]])))
    by (eapply after_reachable; vm_compute; reflexivity).
  assert (Hrender :
            render (after (insight_shown ++ [Ev_setSelectedMonths ["2024-03"]]))
            = Some (after (insight_shown
                           ++ [Ev_setSelectedMonths ["2024-03"]; Ev_render])))
    by (vm_compute; reflexivity).
  assert (Hnew :
            rendered_filteredData
              (after (insight_shown
                      ++ [Ev_setSelectedMonths ["2024-03"]; Ev_render]))
            = Some [sample_enrich initialSettings (rawRecord "1a" "05.03.24")])
    by (vm_compute; reflexivity).
  assert (Hold :
            rendered_filteredData
              (after (insight_shown ++ [Ev_setSelectedMonths ["2024-03"]]))
            <> Some [sample_enrich initialSettings (rawRecord "1a" "05.03.24")])
    by (vm_compute; discriminate).
  assert (Hne : [sample_enrich initialSettings (rawRecord "1a" "05.03.24")]
                <> []) by discriminate.
  exact (proj1 (proj1 (fetchInsights_on_change _ _ _ Hreach Hrender Hnew Hold)
                  Hne)).
Defined.

(** C7 as stated fails: the selection changes to a month without records,
    the filtered list changes from three records to none,
    [getGeminiInsights] is not called, and the header goes on showing the
    insight about the three records. *)
Lemma insight_not_refetched_counterexample :
  ~ (forall (st st' : @AppState sample) F',
        reachable st -> render st = Some st' ->
        rendered_filteredData st' = Some F' ->
        rendered_filteredData st <> Some F' ->
        insightCalls (world st') = insightCalls (world st) ++ [F']) /\
  rendered_filteredData (after insight_shown)
  = Some (map (sample_enrich initialSettings) (doc1 ++ doc3)) /\
  rendered_filteredData
    (after (insight_shown ++ [Ev_setSelectedMonths ["1999-01"]; Ev_render]))
  = Some [] /\
  displayedInsight
    (after (insight_shown ++ [Ev_setSelectedMonths ["1999-01"]; Ev_render]))
  = Some "Kupfer dominiert".
Proof.
  split; [|now vm_compute].
  intros Hall.
  specialize (Hall
    (after (insight_shown ++ [Ev_setSelectedMonths ["1999-01"]]))
    (after (insight_shown ++ [Ev_setSelectedMonths ["1999-01"]; Ev_render]))
    []).
  assert (Hr : @reachable sample
                 (after (insight_shown ++ [Ev_setSelectedMonths ["1999-01"]])))
    by (eapply after_reachable; vm_compute; reflexivity).
  specialize (Hall Hr).
  vm_compute in Hall.
  specialize (Hall eq_refl eq_refl ltac:(discriminate)).
  discriminate Hall.
Qed.

Lemma setSettings_unchecked_witness :
  deref (settings (states (after (settings_changed ++ [Ev_render]))))
  = invalidSettings.
Proof.
  refine (proj1 (proj2 (@setSettings_unchecked sample
             (after (uploaded_1_3 ++ [Ev_render]))
             (after settings_changed)
             (after (settings_changed ++ [Ev_render]))
             invalidSettings _ _ _))).
  - eapply after_reachable. vm_compute. reflexivity.
  - vm_compute. reflexivity.
  - vm_compute. reflexivity.
Defined.

(** C8 as stated fails: settings with descending buckets and a negative
    tolerance are stored by [setSettings] as they are, and the next
    render passes them to [processRawData], whose stand-in records the
    tolerance -5 in every enriched record. *)
Lemma invalid_settings_counterexample :
  validSettings invalidSettings = false /\
  ~ (forall (st st1 : @AppState sample) (s : AppSettings),
        reachable st -> validSettings s = false ->
        react (Ev_setSettings s) st = Some st1 ->
        deref (settings (states st1)) <> s) /\
  rendered_allProcessedData (after (settings_changed ++ [Ev_render]))
  = Some (map (sample_enrich invalidSettings) (doc1 ++ doc3)) /\
  map temp_n (map (sample_enrich invalidSettings) (doc1 ++ doc3))
  = [(-5)%float; (-5)%float; (-5)%float].
Proof.
  split; [reflexivity|]. split; [|now vm_compute].
  intros Hall.
  apply (Hall (after (uploaded_1_3 ++ [Ev_render])) (after settings_changed)
           invalidSettings).
  - eapply after_reachable. vm_compute. reflexivity.
  - reflexivity.
  - vm_compute. reflexivity.
  - vm_compute. reflexivity.
Qed.

(** ** The further properties on the sample plant *)

Lemma handleFileUpload_first_failure_witness :
  @handleFileUpload sample initialSettings [1; 2; 3]
  = [SetIsParsingPdf true;
     ConsoleError "Upload failed" (ThrownError "Seite nicht lesbar");
     Alert "Seite nicht lesbar"; SetIsParsingPdf false].
Proof.
  apply (@handleFileUpload_first_failure sample initialSettings
           ([1] : list nat) ([3] : list nat) 2
           (ThrownError "Seite nicht lesbar")).
  - intros file [<-|[]]. now exists doc1.
  - reflexivity.
Defined.

Lemma uploadStats_counts_witness :
  exists count,
    uploadStats (states (perform_all
                           (@handleFileUpload sample initialSettings [1; 3])
                           (after uploaded_1_3)))
    = Some (2, count) /\
    List.length (@store_after sample initialSettings ([1; 3] : list nat)
                   (after uploaded_1_3))
    = 3 + count /\
    pendingTimers (world (perform_all
                            (@handleFileUpload sample initialSettings [1; 3])
                            (after uploaded_1_3)))
    = 2.
Proof.
  apply (proj1 (@uploadStats_counts sample initialSettings
                  ([1; 3] : list nat) (after uploaded_1_3))).
  intros file [<-|[<-|[]]]; [now exists doc1|now exists doc3].
Defined.

Lemma handleFileUpload_no_records_witness :
  @store_after sample initialSettings ([4; 5] : list nat) (after uploaded_1_3)
  = doc1 ++ doc3 /\
  @store_after sample initialSettings ([] : list nat) (after uploaded_1_3)
  = doc1 ++ doc3.
Proof.
  split.
  - apply (@handleFileUpload_no_records sample initialSettings
             ([4; 5] : list nat) (after uploaded_1_3)).
    intros file [<-|[<-|[]]]; reflexivity.
  - apply (@handleFileUpload_no_records sample initialSettings
             ([] : list nat) (after uploaded_1_3)).
    intros file [].
Defined.

Lemma isParsingPdf_cleared_witness :
  isParsingPdf (states (after uploaded_1_3)) = false.
Proof.
  apply (@isParsingPdf_cleared sample).
  - eapply after_reachable. vm_compute. reflexivity.
  - reflexivity.
Defined.

(** The converse fails: with two uploads in flight, the first to settle
    switches the flag off while the other is still running. *)
Example isParsingPdf_off_while_uploading :
  isParsingPdf
    (states (after [Ev_render; upload [1]; upload [3]; Ev_uploadSettled 0]))
  = false /\
  pendingUploads
    (world (after [Ev_render; upload [1]; upload [3]; Ev_uploadSettled 0]))
  = [([3], initialSettings)].
Proof. split; reflexivity. Qed.

Lemma uploadStats_has_timer_witness :
  0 < pendingTimers (world (after uploaded_1_3)).
Proof.
  apply (@uploadStats_has_timer sample).
  - eapply after_reachable. vm_compute. reflexivity.
  - vm_compute. discriminate.
Defined.

Lemma insightCalls_nonempty_witness :
  Forall (fun F => F <> [])
    (insightCalls
       (world (after (insight_shown
                      ++ [Ev_setSelectedMonths ["1999-01"]; Ev_render])))).
Proof.
  apply (@insightCalls_nonempty sample).
  eapply after_reachable. vm_compute. reflexivity.
Defined.

Lemma isAiLoading_has_call_witness :
  exists call F,
    In call (pendingInsights (world (after (uploaded_1_3 ++ [Ev_render]))))
    /\ nth_error
         (insightCalls (world (after (uploaded_1_3 ++ [Ev_render])))) call
       = Some F.
Proof.
  apply (@isAiLoading_has_call sample).
  - eapply after_reachable. vm_compute. reflexivity.
  - reflexivity.
Defined.

Lemma render_idempotent_witness :
  render (after (uploaded_1_3 ++ [Ev_render]))
  = Some (after (uploaded_1_3 ++ [Ev_render])).
Proof.
  apply (@render_idempotent sample (after uploaded_1_3)).
  - eapply after_reachable. vm_compute. reflexivity.
  - vm_compute. reflexivity.
Defined.

Lemma render_after_unrelated_witness :
  render (after (uploaded_1_3 ++ [Ev_render; Ev_setActiveTab "data"]))
  = Some (after (uploaded_1_3 ++ [Ev_render; Ev_setActiveTab "data"])).
Proof.
  apply (@render_after_unrelated sample (after uploaded_1_3)
           (after (uploaded_1_3 ++ [Ev_render])) _ (Ev_setActiveTab "data")).
  - eapply after_reachable. vm_compute. reflexivity.
  - vm_compute. reflexivity.
  - reflexivity.
  - vm_compute. reflexivity.
Defined.

Lemma selection_keeps_memos_witness :
  memo_allProcessedData
    (cells (after (uploaded_1_3
                   ++ [Ev_render; Ev_setSelectedMonths ["2024-03"];
                       Ev_render])))
  = memo_allProcessedData (cells (after (uploaded_1_3 ++ [Ev_render]))).
Proof.
  refine (proj1 (@selection_keeps_memos sample (after uploaded_1_3)
                   (after (uploaded_1_3 ++ [Ev_render]))
                   (after (uploaded_1_3
                           ++ [Ev_render; Ev_setSelectedMonths ["2024-03"]]))
                   _ ["2024-03"] _ _ _ _)).
  - eapply after_reachable. vm_compute. reflexivity.
  - vm_compute. reflexivity.
  - vm_compute. reflexivity.
  - vm_compute. reflexivity.
Defined.

Lemma upload_uses_settings_of_start_witness :
  @store sample
    (after [Ev_render; upload [1; 3]; Ev_setSettings invalidSettings;
            Ev_uploadSettled 0])
  = @store sample (after [Ev_render])
    ++ flat_map written
         (@handleFileUpload_resume sample initialSettings [1; 3]).
Proof.
  apply (@upload_uses_settings_of_start sample initialState
           (after [Ev_render]) (after [Ev_render; upload [1; 3]])
           (after [Ev_render; upload [1; 3]; Ev_setSettings invalidSettings])
           _ ([1; 3] : list nat) invalidSettings).
  - now exists [].
  - vm_compute. reflexivity.
  - vm_compute. reflexivity.
  - vm_compute. reflexivity.
  - vm_compute. reflexivity.
Defined.

Lemma views_get_filtered_data_witness :
  tabData (DashboardView sample_enriched) <> [] /\
  rendered_filteredData (after (uploaded_1_3 ++ [Ev_render]))
  = Some (tabData (DashboardView sample_enriched)).
Proof.
  refine (proj2 (@views_get_filtered_data sample (after uploaded_1_3)
                   (after (uploaded_1_3 ++ [Ev_render])) sample_screen
                   ["2024-04"; "2024-03"; "2023-11"] []
                   [DashboardView sample_enriched] _ _ _ _)
            (DashboardView sample_enriched) (or_introl eq_refl)).
  - eapply after_reachable. vm_compute. reflexivity.
  - vm_compute. reflexivity.
  - vm_compute. reflexivity.
  - reflexivity.
Defined.

Lemma no_selection_no_empty_period_witness :
  body sample_screen
  <> Loaded ["2024-04"; "2024-03"; "2023-11"] [] NoDataForPeriod.
Proof.
  apply (@no_selection_no_empty_period sample (after uploaded_1_3)
           (after (uploaded_1_3 ++ [Ev_render])) sample_screen).
  - eapply after_reachable. vm_compute. reflexivity.
  - vm_compute. reflexivity.
  - reflexivity.
  - vm_compute. reflexivity.
Defined.

Lemma drop_zone_and_counts_witness :
  0 < 3 <= 3 /\
  3 = List.length (@store sample (after (uploaded_1_3 ++ [Ev_render]))).
Proof.
  refine (proj2 (@drop_zone_and_counts sample (after uploaded_1_3)
                   (after (uploaded_1_3 ++ [Ev_render])) sample_screen
                   _ _ _) 3 3 eq_refl).
  - eapply after_reachable. vm_compute. reflexivity.
  - vm_compute. reflexivity.
  - vm_compute. reflexivity.
Defined.

(** A selection that matches nothing: the store holds three records, yet
    the header says that the application is ready for import. *)
Example header_ready_with_records :
  option_map headerLine
    (screen
       (states (after (uploaded_1_3
                       ++ [Ev_setSelectedMonths ["1999-01"]; Ev_render])))
       (cells (after (uploaded_1_3
                      ++ [Ev_setSelectedMonths ["1999-01"]; Ev_render]))))
  = Some HeaderReady.
Proof. vm_compute. reflexivity. Qed.
